(** * Travel planner API: activity ranking and the rich city identifier codec

    A shallow embedding of [src/unnamed/part_000] (ActivityRankingService),
    [src/unnamed/part_001] (OpenMeteoAPI), [src/src/utils/constants.ts]
    (ACTIVITY_CONFIGS, ERROR_CODES, WEATHER_CODES) and
    [src/src/schema/resolvers.ts] (the GraphQL query resolvers).

    JavaScript numbers are IEEE-754 binary64 values, modelled by Rocq's
    primitive [float] type: its arithmetic and comparisons are the binary64
    ones, including NaN, the infinities and the signed zeros. *)

From Stdlib Require Import ZArith List String Ascii Bool Lia Sorted Permutation.
From Stdlib Require Import Floats.
Set Warnings "-inexact-float".

Import ListNotations.

(* ------------------------------------------------------------------ *)
(** ** The JavaScript runtime pieces the code relies on *)

Module Js.
Local Open Scope float_scope.

(** [Math.min(x, y)]: NaN if either is NaN; of two zeros, [-0]. *)
Definition Math_min (x y : float) : float :=
  if is_nan x || is_nan y then nan
  else if x <? y then x
  else if y <? x then y
  else if get_sign x then x else y.

(** [Math.max(x, y)]: NaN if either is NaN; of two zeros, [+0]. *)
Definition Math_max (x y : float) : float :=
  if is_nan x || is_nan y then nan
  else if x <? y then y
  else if y <? x then x
  else if get_sign x then y else x.

(** The binary64 value of a positive integer of at most 53 bits, written
    as its canonical (normalised) representation. *)
Definition canonical_of_pos (p : positive) : spec_float :=
  let d := Zpos (digits2_pos p) in
  S754_finite false (Nat.iter (Z.to_nat (53 - d)) xO p) (d - 53).

(** The Number whose value is the integer [n] (used for |n| <= 2^53). *)
Definition float_of_Z (n : Z) : float :=
  match n with
  | Z0 => zero
  | Zpos p => SF2Prim (canonical_of_pos p)
  | Zneg p => (- SF2Prim (canonical_of_pos p))
  end.

(** [Math.round(x)]: the integral Number closest to [x], ties towards
    [+Infinity]; NaN, the infinities, the zeros and values that are
    already integral are returned unchanged, and a negative value that
    rounds to zero gives [-0].  A finite [x] is [(-1)^s * m * 2^e]
    exactly; when [e < 0] the result is [floor(x + 1/2)], computed on
    integers as [floor((2*(+-m) + 2^-e) / 2^(1-e))]. *)
Definition Math_round (x : float) : float :=
  match Prim2SF x with
  | S754_finite s m e =>
      if (0 <=? e)%Z then x
      else
        let sm := if s then Zneg m else Zpos m in
        let n := ((2 * sm + 2 ^ (- e)) / 2 ^ (1 - e))%Z in
        if (n =? 0)%Z then (if s then neg_zero else zero) else float_of_Z n
  | _ => x
  end.

(** A JavaScript string value, its code units below 256. *)
Definition js_string := string.

(** [a || b] on strings: the empty string is falsy. *)
Definition string_or (a b : string) : string :=
  match a with
  | EmptyString => b
  | _ => a
  end.

(** [Array.prototype.join(sep)] on an array of strings. *)
Fixpoint join (sep : string) (l : list string) : string :=
  match l with
  | [] => EmptyString
  | [x] => x
  | x :: l' => (x ++ sep ++ join sep l')%string
  end.

(** [String.prototype.includes(sub)]. *)
Fixpoint includes (s sub : string) : bool :=
  if String.prefix sub s then true
  else match s with
       | EmptyString => false
       | String _ s' => includes s' sub
       end.

(** [Array.prototype.sort(comparefn)].  The ECMAScript specification makes
    the sort stable, and a comparator result that is NaN counts as [+0]:
    an element goes after a later one exactly when [comparefn] returns a
    value [> 0].  On a consistent comparator this is the unique stable
    sorted permutation, computed here by insertion sort. *)
Fixpoint insert {A} (comparefn : A -> A -> float) (x : A) (l : list A) : list A :=
  match l with
  | [] => [x]
  | y :: l' => if 0 <? comparefn x y then y :: insert comparefn x l' else x :: l
  end.

Definition sort {A} (comparefn : A -> A -> float) (l : list A) : list A :=
  fold_right (insert comparefn) [] l.

(** [Array.prototype.slice(0, end)] for an integral [end]: a negative end
    counts from the back of the array. *)
Definition slice0 {A} (l : list A) (end_ : Z) : list A :=
  let len := Z.of_nat (List.length l) in
  let final := if (end_ <? 0)%Z then Z.max (len + end_) 0 else Z.min end_ len in
  firstn (Z.to_nat final) l.

(** [Array.prototype.map(callbackfn)] with a callback of the element and
    its index. *)
Fixpoint mapi_from {A B} (f : nat -> A -> B) (i : nat) (l : list A) : list B :=
  match l with
  | [] => []
  | x :: l' => f i x :: mapi_from f (S i) l'
  end.

Definition mapi {A B} (f : nat -> A -> B) (l : list A) : list B := mapi_from f 0 l.

(** An array element read as [a[index]] from an array of numbers: the
    value, or [undefined] past the end. *)
Definition at_index (a : list float) (index : nat) : option float := nth_error a index.

(** [ToNumber] of a number or [undefined], as [+] and [>] apply it. *)
Definition ToNumber (v : option float) : float :=
  match v with
  | Some x => x
  | None => nan
  end.

(** [obj[key]] on an object literal with string keys and string values:
    its own property, if any. *)
Fixpoint get (obj : list (string * string)) (key : string) : option string :=
  match obj with
  | [] => None
  | (k, v) :: obj' => if String.eqb k key then Some v else get obj' key
  end.

End Js.

(* ------------------------------------------------------------------ *)
(** ** Activity profiles ([constants.ts]) and the scoring engine *)

Module ActivityConfig.
Record t := mk {
  name : string;
  idealTempMin : float;
  idealTempMax : float;
  rainTolerance : float;
  windPreference : float
}.
End ActivityConfig.

Module Activity.
Record t := mk {
  name : string;
  suitabilityScore : float;
  reasoning : string
}.
End Activity.

(** [Omit<DailyForecast, 'activities'>]. *)
Record DailyForecastSummary := mkSummary {
  date : string;
  maxTemp : float;
  minTemp : float;
  conditions : string;
  precipitation : float;
  windSpeed : float
}.

Definition ACTIVITY_CONFIGS : list ActivityConfig.t :=
  [ ActivityConfig.mk "skiing" (-10)%float 2%float 0.1%float 0.2%float;
    ActivityConfig.mk "surfing" 18%float 28%float 0.7%float 0.8%float;
    ActivityConfig.mk "indoor_sightseeing" 10%float 30%float 1.0%float 0.5%float;
    ActivityConfig.mk "outdoor_sightseeing" 15%float 25%float 0.1%float 0.3%float ].

Module ActivityRankingService.
Local Open Scope float_scope.

Definition BASE_SCORE := 50.
Definition IDEAL_TEMP_BONUS := 30.
Definition COLD_PENALTY_MULTIPLIER := 5.
Definition WARM_PENALTY_MULTIPLIER := 5.
Definition MAX_TEMP_PENALTY := 30.
Definition RAIN_IMPACT_MULTIPLIER := 20.
Definition HIGH_TOLERANCE_BONUS := 10.
Definition LOW_TOLERANCE_BONUS := 10.
Definition HIGH_TOLERANCE_THRESHOLD := 0.8.
Definition LOW_TOLERANCE_THRESHOLD := 0.3.
Definition WIND_IMPACT_MULTIPLIER := 15.
Definition WIND_OFFSET := 7.5.
Definition HIGH_PREFERENCE_THRESHOLD := 0.6.
Definition LOW_PREFERENCE_THRESHOLD := 0.4.
Definition EXTREME_WEATHER_BONUS := 15.
Definition COLD_THRESHOLD := 10.
Definition HOT_THRESHOLD := 30.
Definition RAIN_THRESHOLD := 1.
Definition WIND_THRESHOLD := 20.
Definition MIN_SCORE := 0.
Definition MAX_SCORE := 100.

(** The body of [scoreActivity] up to its [return]: the mutable [score]
    and [reasons] threaded through the four steps. *)
Definition scoreSteps (config : ActivityConfig.t) (avgTemp : float)
    (hasRain isWindy : bool) : float * list string :=
  let score := BASE_SCORE in
  let reasons : list string := [] in
  let '(score, reasons) :=
    if (ActivityConfig.idealTempMin config <=? avgTemp)
       && (avgTemp <=? ActivityConfig.idealTempMax config) then
      (score + IDEAL_TEMP_BONUS, reasons ++ ["ideal temperature"%string])
    else if avgTemp <? ActivityConfig.idealTempMin config then
      let penalty := Js.Math_min MAX_TEMP_PENALTY
          ((ActivityConfig.idealTempMin config - avgTemp) * COLD_PENALTY_MULTIPLIER) in
      (score - penalty, reasons ++ ["too cold"%string])
    else
      let penalty := Js.Math_min MAX_TEMP_PENALTY
          ((avgTemp - ActivityConfig.idealTempMax config) * WARM_PENALTY_MULTIPLIER) in
      (score - penalty, reasons ++ ["too warm"%string]) in
  let '(score, reasons) :=
    if hasRain then
      let rainImpact := (1 - ActivityConfig.rainTolerance config) * RAIN_IMPACT_MULTIPLIER in
      let score := score - rainImpact in
      if HIGH_TOLERANCE_THRESHOLD <? ActivityConfig.rainTolerance config then
        (score + HIGH_TOLERANCE_BONUS, reasons ++ ["rain makes it more appealing"%string])
      else if ActivityConfig.rainTolerance config <? LOW_TOLERANCE_THRESHOLD then
        (score, reasons ++ ["rain not ideal"%string])
      else (score, reasons)
    else
      if ActivityConfig.rainTolerance config <? LOW_TOLERANCE_THRESHOLD then
        (score + LOW_TOLERANCE_BONUS, reasons ++ ["no rain"%string])
      else (score, reasons) in
  let '(score, reasons) :=
    if isWindy then
      let windImpact := ActivityConfig.windPreference config * WIND_IMPACT_MULTIPLIER - WIND_OFFSET in
      let score := score + windImpact in
      if HIGH_PREFERENCE_THRESHOLD <? ActivityConfig.windPreference config then
        (score, reasons ++ ["good wind conditions"%string])
      else if ActivityConfig.windPreference config <? LOW_PREFERENCE_THRESHOLD then
        (score, reasons ++ ["windy conditions"%string])
      else (score, reasons)
    else (score, reasons) in
  let '(score, reasons) :=
    if Js.includes (ActivityConfig.name config) "indoor" then
      if (avgTemp <? COLD_THRESHOLD) || (HOT_THRESHOLD <? avgTemp) then
        (score + EXTREME_WEATHER_BONUS,
         reasons ++ ["extreme weather favors indoor activities"%string])
      else (score, reasons)
    else (score, reasons) in
  (score, reasons).

Definition scoreActivity (config : ActivityConfig.t) (avgTemp : float)
    (hasRain isWindy : bool) (precipitation windSpeed : float) : Activity.t :=
  let '(score, reasons) := scoreSteps config avgTemp hasRain isWindy in
  Activity.mk (ActivityConfig.name config)
    (Js.Math_max MIN_SCORE (Js.Math_min MAX_SCORE (Js.Math_round score)))
    (Js.string_or (Js.join ", " reasons) "standard conditions").

(** [ACTIVITY_CONFIGS.map(...)]: the scored profiles, in table order. *)
Definition scoredActivities (forecast : DailyForecastSummary) : list Activity.t :=
  let avgTemp := (maxTemp forecast + minTemp forecast) / 2 in
  let hasRain := RAIN_THRESHOLD <? precipitation forecast in
  let isWindy := WIND_THRESHOLD <? windSpeed forecast in
  map (fun config => scoreActivity config avgTemp hasRain isWindy
                       (precipitation forecast) (windSpeed forecast))
      ACTIVITY_CONFIGS.

(** The comparator [(a, b) => b.suitabilityScore - a.suitabilityScore]. *)
Definition byScoreDesc (a b : Activity.t) : float :=
  Activity.suitabilityScore b - Activity.suitabilityScore a.

Definition rankActivitiesForDay (forecast : DailyForecastSummary) (top : Z) : list Activity.t :=
  Js.slice0 (Js.sort byScoreDesc (scoredActivities forecast)) top.

End ActivityRankingService.

(* ------------------------------------------------------------------ *)
(** ** JavaScript strings and numbers used by the city identifier codec *)

Module JsText.
Local Open Scope string_scope.

(** [WhiteSpace] and [LineTerminator] code units below 256: TAB, LF, VT,
    FF, CR, SPACE and NO-BREAK SPACE. *)
Definition is_ws (c : ascii) : bool :=
  existsb (Nat.eqb (nat_of_ascii c)) [9; 10; 11; 12; 13; 32; 160]%nat.

Fixpoint trim_start (s : string) : string :=
  match s with
  | EmptyString => EmptyString
  | String c s' => if is_ws c then trim_start s' else s
  end.

Fixpoint trim_end (s : string) : string :=
  match s with
  | EmptyString => EmptyString
  | String c s' =>
      let t := trim_end s' in
      match t with
      | EmptyString => if is_ws c then EmptyString else String c EmptyString
      | _ => String c t
      end
  end.

(** [String.prototype.trim()]. *)
Definition trim (s : string) : string := trim_end (trim_start s).

(** [String.prototype.split(sep)] for a one-character separator: the
    pieces between the separators, [[""]] for the empty string. *)
Fixpoint split (sep : ascii) (s : string) : list string :=
  match s with
  | EmptyString => [EmptyString]
  | String c s' =>
      let r := split sep s' in
      if Ascii.eqb c sep then EmptyString :: r
      else match r with
           | h :: t => String c h :: t
           | [] => [String c EmptyString]
           end
  end.

(** Truthiness of an optional string (an array element that may be
    [undefined]): [undefined] and [""] are falsy. *)
Definition truthy (s : option string) : bool :=
  match s with
  | None | Some EmptyString => false
  | Some _ => true
  end.

End JsText.

Module JsNumber.
Local Open Scope string_scope.

Definition is_digit (c : ascii) : bool :=
  (48 <=? nat_of_ascii c)%nat && (nat_of_ascii c <=? 57)%nat.

Definition digit_value (c : ascii) : Z := Z.of_nat (nat_of_ascii c - 48).

(** The longest run of decimal digits at the front of [s], and the rest. *)
Fixpoint scan_digits (s : string) : list Z * string :=
  match s with
  | String c s' =>
      if is_digit c then let '(ds, r) := scan_digits s' in (digit_value c :: ds, r)
      else ([], s)
  | EmptyString => ([], s)
  end.

Definition digits_value (ds : list Z) : Z := fold_left (fun acc d => acc * 10 + d)%Z ds 0%Z.

(** The [SignedInteger] of an [ExponentPart], if one starts [s]. *)
Definition scan_signed (s : string) : option Z :=
  let '(neg, s') :=
    match s with
    | String "-" r => (true, r)
    | String "+" r => (false, r)
    | _ => (false, s)
    end in
  match scan_digits s' with
  | ([], _) => None
  | (ds, _) => Some (if neg then - digits_value ds else digits_value ds)%Z
  end.

(** The longest prefix of [s] that is a [StrUnsignedDecimalLiteral]:
    [Infinity], or digits with an optional fraction and exponent, read as
    [m * 10^e]. *)
Inductive literal := Lit_infinity | Lit_decimal (m e : Z).

Definition scan_unsigned (s : string) : option literal :=
  if String.prefix "Infinity" s then Some Lit_infinity
  else
    let '(ip, r1) := scan_digits s in
    let '(fp, r2) :=
      match r1 with
      | String "." r => scan_digits r
      | _ => ([], r1)
      end in
    match ip, fp with
    | [], [] => None
    | _, _ =>
        let ex :=
          match r2 with
          | String c r =>
              if Ascii.eqb c "e" || Ascii.eqb c "E" then
                match scan_signed r with Some x => x | None => 0%Z end
              else 0%Z
          | EmptyString => 0%Z
          end in
        Some (Lit_decimal (digits_value (ip ++ fp)) (ex - Z.of_nat (List.length fp))%Z)
    end.

(** The Number value (round to nearest, ties to even) of [m * 10^e],
    negated when [neg]. *)
Definition decimal_value (neg : bool) (m e : Z) : float :=
  let v :=
    if (m =? 0)%Z then S754_zero false
    else if (0 <=? e)%Z then binary_normalize prec emax (m * 10 ^ e) 0 false
    else SFdiv prec emax (S754_finite false (Z.to_pos m) 0)
                         (S754_finite false (Z.to_pos (10 ^ (- e))) 0) in
  SF2Prim (if neg then SFopp v else v).

(** [parseFloat(string)]: skip leading white space, read the longest
    prefix that is a [StrDecimalLiteral]; NaN if there is none. *)
Definition parseFloat (s : string) : float :=
  let t := JsText.trim_start s in
  let '(neg, u) :=
    match t with
    | String "-" r => (true, r)
    | String "+" r => (false, r)
    | _ => (false, t)
    end in
  match scan_unsigned u with
  | None => nan
  | Some Lit_infinity => if neg then neg_infinity else infinity
  | Some (Lit_decimal m e) => decimal_value neg m e
  end.

(** Decimal digits. *)
Definition digit_char (d : Z) : ascii :=
  match Z.to_nat d as n return ascii with
  | 0%nat => "0" | 1 => "1" | 2 => "2" | 3 => "3" | 4 => "4"
  | 5 => "5" | 6 => "6" | 7 => "7" | 8 => "8" | _ => "9"
  end%char.

Fixpoint digits_aux (fuel : nat) (z : Z) (acc : string) : string :=
  match fuel with
  | O => acc
  | S f =>
      let acc' := String (digit_char (z mod 10)) acc in
      if (z <? 10)%Z then acc' else digits_aux f (z / 10) acc'
  end.

(** The decimal representation of an integer [z >= 0]. *)
Definition digits_of_Z (z : Z) : string :=
  digits_aux (S (Z.to_nat (Z.log2 z))) z EmptyString.

(** The number of decimal digits of [z > 0]. *)
Definition digits10 (z : Z) : Z := Z.of_nat (String.length (digits_of_Z z)).

Definition zeros (n : Z) : string :=
  string_of_list_ascii (repeat "0"%char (Z.to_nat n)).

(** For [x = m * 2^e > 0]: the integer [t] with [10^t <= x < 10^(t+1)]. *)
Definition decimal_exponent (m e : Z) : Z :=
  let A := (m * 2 ^ Z.max e 0)%Z in
  let B := (2 ^ Z.max (- e) 0)%Z in
  if (B <=? A)%Z then (digits10 (A / B) - 1)%Z
  else
    let j := digits10 (B / A) in
    if (A * 10 ^ (j - 1) =? B)%Z then (1 - j)%Z else (- j)%Z.

(** The [k]-digit decimals [s * 10^(n-k)] next to [x = m * 2^e] from below
    and from above; the one whose Number value is [x] (the closer one if
    both are, the even one on a tie), as [(s, n)]. *)
Definition candidate (x : float) (m e : Z) (k : Z) : option (Z * Z) :=
  let t := decimal_exponent m e in
  let q := (t - k + 1)%Z in
  let num := (m * 2 ^ Z.max e 0 * 10 ^ Z.max (- q) 0)%Z in
  let den := (2 ^ Z.max (- e) 0 * 10 ^ Z.max q 0)%Z in
  let lo := (num / den)%Z in
  let hi := (lo + 1)%Z in
  let lo_ok := PrimFloat.eqb (decimal_value false lo q) x in
  let hi_ok := PrimFloat.eqb (decimal_value false hi q) x in
  let hi_sn := if (hi =? 10 ^ k)%Z then ((10 ^ (k - 1))%Z, (q + 1 + k)%Z) else (hi, (q + k)%Z) in
  if lo_ok && hi_ok then
    let dlo := (num - lo * den)%Z in
    let dhi := (hi * den - num)%Z in
    if (dlo <? dhi)%Z then Some (lo, (q + k)%Z)
    else if (dhi <? dlo)%Z then Some hi_sn
    else if Z.even lo then Some (lo, (q + k)%Z) else Some hi_sn
  else if lo_ok then Some (lo, (q + k)%Z)
  else if hi_ok then Some hi_sn
  else None.

(** The least [k] for which a [k]-digit decimal denotes [x]; seventeen
    digits always suffice. *)
Fixpoint shortest (fuel : nat) (x : float) (m e k : Z) : Z * Z :=
  match fuel with
  | O => let t := decimal_exponent m e in
         let q := (t - 16)%Z in
         ((m * 2 ^ Z.max e 0 * 10 ^ Z.max (- q) 0 / (2 ^ Z.max (- e) 0 * 10 ^ Z.max q 0))%Z,
          (t + 1)%Z)
  | S f => match candidate x m e k with
           | Some r => r
           | None => shortest f x m e (k + 1)
           end
  end.

(** Steps 6 to 11 of [Number::toString(x)]: the digits [s] of [x] and the
    position [n] of the decimal point. *)
Definition format (s n : Z) : string :=
  let ds := digits_of_Z s in
  let k := Z.of_nat (String.length ds) in
  if (k <=? n)%Z && (n <=? 21)%Z then ds ++ zeros (n - k)
  else if (0 <? n)%Z && (n <=? 21)%Z then
    substring 0 (Z.to_nat n) ds ++ "." ++ substring (Z.to_nat n) (Z.to_nat (k - n)) ds
  else if (-6 <? n)%Z && (n <=? 0)%Z then "0." ++ zeros (- n) ++ ds
  else
    let ex := (n - 1)%Z in
    let sign := if (ex <? 0)%Z then "-" else "+" in
    if (k =? 1)%Z then ds ++ "e" ++ sign ++ digits_of_Z (Z.abs ex)
    else substring 0 1 ds ++ "." ++ substring 1 (Z.to_nat (k - 1)) ds
         ++ "e" ++ sign ++ digits_of_Z (Z.abs ex).

Definition toString_nonneg (x : float) : string :=
  match Prim2SF x with
  | S754_infinity _ => "Infinity"
  | S754_finite _ m e =>
      let '(s, n) := shortest 17 x (Zpos m) e 1 in format s n
  | _ => "0"
  end.

(** [Number::toString(x)] in radix 10, as [`${x}`] produces it. *)
Definition toString (x : float) : string :=
  if is_nan x then "NaN"
  else if PrimFloat.eqb x 0%float then "0"
  else if PrimFloat.ltb x 0%float then "-" ++ toString_nonneg (- x)%float
  else toString_nonneg x.

End JsNumber.

(* ------------------------------------------------------------------ *)
(** ** [OpenMeteoAPI]: the city identifier codec and [searchCities] *)

Module ERROR_CODES.
Definition RATE_LIMIT_EXCEEDED : string := "RATE_LIMIT_EXCEEDED".
Definition TIMEOUT : string := "TIMEOUT".
Definition UNKNOWN_ERROR : string := "UNKNOWN_ERROR".
Definition INVALID_COORDINATES : string := "INVALID_COORDINATES".
Definition BAD_USER_INPUT : string := "BAD_USER_INPUT".
Definition INTERNAL_SERVER_ERROR : string := "INTERNAL_SERVER_ERROR".
End ERROR_CODES.

(** [WEATHER_CODES] ([constants.ts]): an object literal whose property
    keys are the numerals of the WMO weather codes. *)
Definition WEATHER_CODES : list (string * string) :=
  [("0", "Clear sky"); ("1", "Mainly clear"); ("2", "Partly cloudy"); ("3", "Overcast");
   ("45", "Fog"); ("48", "Depositing rime fog"); ("51", "Light drizzle");
   ("53", "Moderate drizzle"); ("55", "Dense drizzle"); ("56", "Light freezing drizzle");
   ("57", "Dense freezing drizzle"); ("61", "Slight rain"); ("63", "Moderate rain");
   ("65", "Heavy rain"); ("66", "Light freezing rain"); ("67", "Heavy freezing rain");
   ("71", "Slight snow fall"); ("73", "Moderate snow fall"); ("75", "Heavy snow fall");
   ("77", "Snow grains"); ("80", "Slight rain showers"); ("81", "Moderate rain showers");
   ("82", "Violent rain showers"); ("85", "Slight snow showers"); ("86", "Heavy snow showers");
   ("95", "Thunderstorm"); ("96", "Thunderstorm with slight hail");
   ("99", "Thunderstorm with heavy hail")]%string.

Module OpenMeteoAPI.
Local Open Scope string_scope.

(** [new OpenMeteoAPIError(message, code)]. *)
Record OpenMeteoAPIError := mkError { message : string; code : string }.

(** A call that returns a value or throws an [OpenMeteoAPIError]. *)
Inductive result (A : Type) :=
| Ok (a : A)
| Err (e : OpenMeteoAPIError).
Arguments Ok {A} a.
Arguments Err {A} e.

(** The double quote character. *)
Definition dq : string := String (ascii_of_nat 34) EmptyString.

Definition isValidCoordinate (latitude longitude : float) : bool :=
  negb (is_nan latitude) && negb (is_nan longitude)
  && (-90 <=? latitude)%float && (latitude <=? 90)%float
  && (-180 <=? longitude)%float && (longitude <=? 180)%float.

Record ParsedCity := mkParsed {
  p_latitude : float;
  p_longitude : float;
  p_name : string;
  p_country : string
}.

Definition INVALID_FORMAT_MESSAGE : string :=
  "Invalid city ID format. Expected format: " ++ dq ++ "lat,lon:name:country" ++ dq.
Definition MISSING_COORDINATES_MESSAGE : string :=
  "Invalid coordinates in city ID. Expected format: " ++ dq ++ "lat,lon" ++ dq.
Definition INVALID_COORDINATES_MESSAGE : string :=
  "Invalid coordinates in city ID. Expected valid coordinates in the format: "
  ++ dq ++ "lat,lon" ++ dq.

Definition parseCityId (cityId : string) : result ParsedCity :=
  let parts := JsText.split ":" cityId in
  match parts with
  | [coords; name; country] =>
      let cs := JsText.split "," coords in
      let latStr := nth_error cs 0 in
      let lonStr := nth_error cs 1 in
      if negb (JsText.truthy latStr) || negb (JsText.truthy lonStr) then
        Err (mkError MISSING_COORDINATES_MESSAGE ERROR_CODES.INVALID_COORDINATES)
      else
        let latitude := JsNumber.parseFloat (match latStr with Some s => s | None => "" end) in
        let longitude := JsNumber.parseFloat (match lonStr with Some s => s | None => "" end) in
        if negb (isValidCoordinate latitude longitude) then
          Err (mkError INVALID_COORDINATES_MESSAGE ERROR_CODES.INVALID_COORDINATES)
        else Ok (mkParsed latitude longitude name country)
  | _ => Err (mkError INVALID_FORMAT_MESSAGE ERROR_CODES.INVALID_COORDINATES)
  end.

(** The fields of a [GeocodingResult] that [searchCities] reads. *)
Record GeocodingResult := mkResult {
  r_name : string;
  r_latitude : float;
  r_longitude : float;
  r_feature_code : string;
  r_country : string
}.

Record GeocodingResponse := mkResponse {
  results : option (list GeocodingResult);
  generationtime_ms : float
}.

Record City := mkCity {
  id : string;
  name : string;
  country : string;
  latitude : float;
  longitude : float
}.

(** The [axios.get] call: URL, query parameters and timeout. *)
Record GeocodingRequest := mkRequest {
  url : string;
  param_name : string;
  param_count : Z;
  param_language : string;
  param_format : string;
  timeout : Z
}.

(** How the call settles: a response, an axios error (its [code], the
    status and status text of its response if any, its [message]), or
    another error. *)
Inductive outcome :=
| Response (data : GeocodingResponse)
| AxiosError (err_code : option string) (status : option Z)
             (statusText : option string) (err_message : string)
| OtherError.

(** A computation that either has finished or waits for one geocoding
    request to settle. *)
Inductive step (A : Type) :=
| Done (r : result A)
| Request (req : GeocodingRequest) (k : outcome -> step A).
Arguments Done {A} r.
Arguments Request {A} req k.

Definition GEOCODING_BASE_URL : string := "https://geocoding-api.open-meteo.com/v1".
Definition REQUEST_TIMEOUT_MS : Z := 10000.
Definition MAX_RESULTS : Z := 10.

Definition PLACE_CODES : list string :=
  ["PPLA"; "PPLA2"; "PPLA3"; "PPLA4"; "PPLC"; "PPL"; "PPLF"; "PPLG"; "PPLL";
   "PPLR"; "PPLS"; "PPLW"].

(** The [map] callback: the rich identifier [`${lat},${lon}:${name}:${country}`]. *)
Definition toCity (r : GeocodingResult) : City :=
  mkCity (JsNumber.toString (r_latitude r) ++ "," ++ JsNumber.toString (r_longitude r)
          ++ ":" ++ r_name r ++ ":" ++ r_country r)
         (r_name r) (r_country r) (r_latitude r) (r_longitude r).

Definition searchCities (query : string) : step (list City) :=
  if String.eqb query "" || (String.length (JsText.trim query) <? 2)%nat then
    Done (Err (mkError "Query must be at least 2 characters long" ERROR_CODES.BAD_USER_INPUT))
  else
    Request (mkRequest (GEOCODING_BASE_URL ++ "/search") (JsText.trim query) MAX_RESULTS
               "en" "json" REQUEST_TIMEOUT_MS)
      (fun o =>
         match o with
         | Response data =>
             match results data with
             | None => Done (Ok [])
             | Some rs =>
                 let filteredResults :=
                   filter (fun r => existsb (String.eqb (r_feature_code r)) PLACE_CODES) rs in
                 Done (Ok (map toCity filteredResults))
             end
         | AxiosError c st stText msg =>
             if match c with Some c' => String.eqb c' "ECONNABORTED" | None => false end then
               Done (Err (mkError "Request timeout while searching cities" ERROR_CODES.TIMEOUT))
             else if match st with Some n => (n =? 429)%Z | None => false end then
               Done (Err (mkError "Rate limit exceeded. Please try again later."
                            ERROR_CODES.RATE_LIMIT_EXCEEDED))
             else
               Done (Err (mkError ("Failed to search cities: "
                                   ++ match stText with Some t => Js.string_or t msg | None => msg end)
                            ERROR_CODES.UNKNOWN_ERROR))
         | OtherError =>
             Done (Err (mkError "Unknown error occurred while searching cities"
                          ERROR_CODES.UNKNOWN_ERROR))
         end).

(** *** [getWeatherCondition], [getWeatherData] and [getWeatherByCityId] *)

(** A computation that either has finished with a value or issues a
    request and continues with the way it settles. *)
Inductive io (Req Resp R : Type) :=
| Ret (r : R)
| Call (req : Req) (k : Resp -> io Req Resp R).
Arguments Ret {Req Resp R} r.
Arguments Call {Req Resp R} req k.

Fixpoint io_map {Req Resp A B} (f : A -> B) (m : io Req Resp A) : io Req Resp B :=
  match m with
  | Ret r => Ret (f r)
  | Call req k => Call req (fun o => io_map f (k o))
  end.

(** [ToString] of a number or of [undefined]: the property key that
    [WEATHER_CODES[code]] looks up and the text [`${code}`] inserts.  These
    keys (numerals, [NaN], [Infinity], [-Infinity], [undefined]) name no
    property of [Object.prototype], so only the literal's own properties
    are found. *)
Definition key_of (code : option float) : string :=
  match code with
  | Some x => JsNumber.toString x
  | None => "undefined"
  end.

Definition getWeatherCondition (code : option float) : string :=
  let fallback := "Unknown condition (" ++ key_of code ++ ")" in
  match Js.get WEATHER_CODES (key_of code) with
  | Some d => Js.string_or d fallback
  | None => fallback
  end.

(** The fields of the weather response that [getWeatherData] reads. *)
Record CurrentWeather := mkCurrent {
  temperature_2m : float;
  relative_humidity_2m : float;
  cur_precipitation : float;
  cur_weather_code : float;
  wind_speed_10m : float
}.

Record DailyWeather := mkDaily {
  time : list string;
  weather_code : list float;
  temperature_2m_max : list float;
  temperature_2m_min : list float;
  precipitation_sum : list float;
  wind_speed_10m_max : list float
}.

Record WeatherResponse := mkWeatherResponse {
  current : CurrentWeather;
  daily : DailyWeather
}.

(** [DailyForecast]: its numbers are read by index from the daily arrays
    and are [undefined] ([None]) where an array is shorter than [time]. *)
Record DailyForecast := mkDailyForecast {
  fc_date : string;
  fc_maxTemp : option float;
  fc_minTemp : option float;
  fc_conditions : string;
  fc_precipitation : option float;
  fc_windSpeed : option float;
  fc_activities : list Activity.t
}.

Record Weather := mkWeather {
  w_temperature : float;
  w_conditions : string;
  w_humidity : float;
  w_windSpeed : float;
  w_precipitation : float;
  w_forecast : list DailyForecast
}.

(** The [axios.get] call of [getWeatherData]. *)
Record ForecastRequest := mkForecastRequest {
  f_url : string;
  f_latitude : float;
  f_longitude : float;
  f_current : string;
  f_daily : string;
  f_timezone : string;
  f_forecast_days : Z;
  f_timeout : Z
}.

(** How the weather request settles (as [outcome] for the geocoding
    request). *)
Inductive weather_outcome :=
| WResponse (data : WeatherResponse)
| WAxiosError (err_code : option string) (status : option Z)
              (statusText : option string) (err_message : string)
| WOtherError.

Definition WEATHER_BASE_URL : string := "https://api.open-meteo.com/v1".

(** The [forecastDay] object handed to [rankActivitiesForDay]: JavaScript's
    [+] and [>] apply [ToNumber] to its numbers, so [undefined] acts there
    as NaN. *)
Definition forecastDay_summary (date : string) (maxT minT : option float)
    (conditions : string) (precipitation windSpeed : option float) : DailyForecastSummary :=
  mkSummary date (Js.ToNumber maxT) (Js.ToNumber minT) conditions
    (Js.ToNumber precipitation) (Js.ToNumber windSpeed).

(** The [daily.time.map] callback. *)
Definition forecast_entry (daily : DailyWeather) (index : nat) (date : string) : DailyForecast :=
  let maxT := Js.at_index (temperature_2m_max daily) index in
  let minT := Js.at_index (temperature_2m_min daily) index in
  let conditions := getWeatherCondition (Js.at_index (weather_code daily) index) in
  let prec := Js.at_index (precipitation_sum daily) index in
  let wind := Js.at_index (wind_speed_10m_max daily) index in
  let activities :=
    ActivityRankingService.rankActivitiesForDay
      (forecastDay_summary date maxT minT conditions prec wind) 1 in
  mkDailyForecast date maxT minT conditions prec wind activities.

Definition getWeatherData (latitude longitude : float)
    : io ForecastRequest weather_outcome (result Weather) :=
  if negb (isValidCoordinate latitude longitude) then
    Ret (Err (mkError "Invalid coordinates provided" ERROR_CODES.INVALID_COORDINATES))
  else
    Call (mkForecastRequest (WEATHER_BASE_URL ++ "/forecast") latitude longitude
            (Js.join "," ["temperature_2m"; "relative_humidity_2m"; "precipitation";
                          "weather_code"; "wind_speed_10m"])
            (Js.join "," ["weather_code"; "temperature_2m_max"; "temperature_2m_min";
                          "precipitation_sum"; "wind_speed_10m_max"])
            "auto" 7 REQUEST_TIMEOUT_MS)
      (fun o =>
         Ret match o with
             | WResponse data =>
                 let current := current data in
                 let daily := daily data in
                 let forecast := Js.mapi (forecast_entry daily) (time daily) in
                 Ok (mkWeather (temperature_2m current)
                       (getWeatherCondition (Some (cur_weather_code current)))
                       (relative_humidity_2m current) (wind_speed_10m current)
                       (cur_precipitation current) forecast)
             | WAxiosError c st stText msg =>
                 if match c with Some c' => String.eqb c' "ECONNABORTED" | None => false end then
                   Err (mkError "Request timeout while fetching weather data" ERROR_CODES.TIMEOUT)
                 else if match st with Some n => (n =? 429)%Z | None => false end then
                   Err (mkError "Rate limit exceeded. Please try again later."
                          ERROR_CODES.RATE_LIMIT_EXCEEDED)
                 else
                   Err (mkError ("Failed to fetch weather data: "
                                 ++ match stText with Some t => Js.string_or t msg | None => msg end)
                          ERROR_CODES.UNKNOWN_ERROR)
             | WOtherError =>
                 Err (mkError "Unknown error occurred while fetching weather data"
                        ERROR_CODES.UNKNOWN_ERROR)
             end).

(** [Omit<City, 'id'>]. *)
Record CityInfo := mkCityInfo {
  i_name : string;
  i_country : string;
  i_latitude : float;
  i_longitude : float
}.

(** [parseCityId] throws before [getWeatherData] is called. *)
Definition getWeatherByCityId (cityId : string)
    : io ForecastRequest weather_outcome (result (Weather * CityInfo)) :=
  match parseCityId cityId with
  | Err e => Ret (Err e)
  | Ok p =>
      io_map (fun r => match r with
                       | Ok weather =>
                           Ok (weather, mkCityInfo (p_name p) (p_country p)
                                          (p_latitude p) (p_longitude p))
                       | Err e => Err e
                       end)
        (getWeatherData (p_latitude p) (p_longitude p))
  end.

End OpenMeteoAPI.

(* ------------------------------------------------------------------ *)
(** ** The GraphQL resolvers ([src/src/schema/resolvers.ts]) *)

Module resolvers.
Import OpenMeteoAPI.
Local Open Scope string_scope.

(** [new GraphQLError(message, { extensions: { code, service } })]. *)
Record GraphQLError := mkGraphQLError {
  gql_message : string;
  gql_code : string;
  gql_service : option string
}.

Inductive gql_result (A : Type) :=
| GOk (a : A)
| GErr (e : GraphQLError).
Arguments GOk {A} a.
Arguments GErr {A} e.

Record CityWeather := mkCityWeather { cw_city : City; cw_weather : Weather }.



(** [Query.getCityWeather]: the city is [{ id: cityId, ...cityInfo }].  As
    above, every rejection of [getWeatherByCityId] is an
    [OpenMeteoAPIError] and never a [GraphQLError]. *)
Definition Query_getCityWeather (cityId : string)
    : io ForecastRequest weather_outcome (gql_result CityWeather) :=
  io_map (fun r => match r with
                   | Ok (weather, cityInfo) =>
                       GOk (mkCityWeather
                              (mkCity cityId (i_name cityInfo) (i_country cityInfo)
                                 (i_latitude cityInfo) (i_longitude cityInfo))
                              weather)
                   | Err error =>
                       GErr (mkGraphQLError (message error) (code error)
                               (Some "OpenMeteo Weather API"))
                   end)
    (getWeatherByCityId cityId).

End resolvers.

(** Binary64 classification used by the proofs. *)
Module Binary64.

(** A number that is finite or zero. *)
Definition sf_fin (a : spec_float) : Prop :=
  match a with
  | S754_finite _ _ _ | S754_zero _ => True
  | _ => False
  end.

(** Equality of binary64 values, as data. *)
Definition sf_eqb (a b : spec_float) : bool :=
  match a, b with
  | S754_zero s, S754_zero t => Bool.eqb s t
  | S754_infinity s, S754_infinity t => Bool.eqb s t
  | S754_nan, S754_nan => true
  | S754_finite s m e, S754_finite t n f => Bool.eqb s t && Pos.eqb m n && Z.eqb e f
  | _, _ => false
  end.

End Binary64.

(** The results a computation of type [io] can finish with, over all the
    ways its requests may settle. *)
Module Reach.
Import OpenMeteoAPI.
Inductive reaches {Req Resp R : Type} : io Req Resp R -> R -> Prop :=
| reaches_ret (r : R) : reaches (Ret r) r
| reaches_call (req : Req) (k : Resp -> io Req Resp R) (o : Resp) (r : R) :
    reaches (k o) r -> reaches (Call req k) r.
End Reach.

(** [a] occurs somewhere before [b] in [l]. *)
Module ListOrder.
Definition before {A} (a b : A) (l : list A) : Prop :=
  exists l1 l2 l3, l = l1 ++ a :: l2 ++ b :: l3.
End ListOrder.

(* ================================================================== *)
(** * Proofs *)

(** ** Binary64 facts used by the scoring proofs *)

Module FloatFacts.
Local Open Scope float_scope.

Lemma SFcompare_refl (a : spec_float) :
  a <> S754_nan -> SFcompare a a = Some Eq.
Proof.
  destruct a as [s|s| |s m e]; intro H; try congruence;
    destruct s; simpl; try reflexivity;
    rewrite Z.compare_refl, Pos.compare_cont_refl; reflexivity.
Qed.

Lemma is_nan_spec (x : float) : is_nan x = true <-> Prim2SF x = S754_nan.
Proof.
  unfold is_nan. rewrite FloatAxioms.eqb_spec. unfold SFeqb.
  destruct (Prim2SF x) eqn:E.
  1,2,4: rewrite SFcompare_refl by discriminate; simpl; split; discriminate.
  simpl; split; reflexivity.
Qed.

Lemma is_nan_false (x : float) : is_nan x = false <-> Prim2SF x <> S754_nan.
Proof.
  rewrite <- is_nan_spec. destruct (is_nan x); split; congruence.
Qed.

(** *** Integers of at most 53 bits *)

Lemma digits2_pos_iter_xO (k : nat) (p : positive) :
  Zpos (digits2_pos (Nat.iter k xO p)) = (Zpos (digits2_pos p) + Z.of_nat k)%Z.
Proof.
  induction k as [|k IH]; simpl; [lia|].
  change (digits2_pos (xO (Nat.iter k xO p))) with (Pos.succ (digits2_pos (Nat.iter k xO p))).
  rewrite Pos2Z.inj_succ, IH. lia.
Qed.

Lemma digits2_pos_bound (p : positive) :
  (2 ^ (Zpos (digits2_pos p) - 1) <= Zpos p < 2 ^ Zpos (digits2_pos p))%Z.
Proof.
  induction p as [p IH|p IH|]; [| |cbn; lia].
  all: change (digits2_pos _) with (Pos.succ (digits2_pos p)).
  all: rewrite Pos2Z.inj_succ.
  all: try rewrite (Pos2Z.inj_xI p); try rewrite (Pos2Z.inj_xO p).
  all: replace (Z.succ (Zpos (digits2_pos p)) - 1)%Z with (Zpos (digits2_pos p)) by lia.
  all: rewrite Z.pow_succ_r by lia.
  all: assert (E : (2 ^ Zpos (digits2_pos p) = 2 * 2 ^ (Zpos (digits2_pos p) - 1))%Z)
      by (rewrite <- Z.pow_succ_r by lia; f_equal; lia).
  all: rewrite E in *; lia.
Qed.

Lemma canonical_of_pos_valid (p : positive) :
  (Zpos p < 2 ^ 53)%Z -> valid_binary (Js.canonical_of_pos p) = true.
Proof.
  intro Hp. pose proof (digits2_pos_bound p) as [Hlo _].
  assert (Hd : (Zpos (digits2_pos p) <= 53)%Z).
  { destruct (Z.le_gt_cases (Zpos (digits2_pos p)) 53) as [H|H]; [exact H|].
    assert (2 ^ 53 <= 2 ^ (Zpos (digits2_pos p) - 1))%Z
      by (apply Z.pow_le_mono_r; lia). lia. }
  unfold Js.canonical_of_pos; cbn [SpecFloat.valid_binary].
  unfold bounded, canonical_mantissa.
  rewrite digits2_pos_iter_xO, Z2Nat.id by lia.
  unfold fexp, emin, FloatOps.prec, FloatOps.emax.
  apply andb_true_intro; split; [apply Z.eqb_eq | apply Z.leb_le]; lia.
Qed.

Lemma Prim2SF_float_of_pos (p : positive) :
  (Zpos p < 2 ^ 53)%Z ->
  Prim2SF (Js.float_of_Z (Zpos p)) = Js.canonical_of_pos p.
Proof.
  intro Hp. apply Prim2SF_SF2Prim, canonical_of_pos_valid, Hp.
Qed.

Lemma Prim2SF_float_of_neg (p : positive) :
  (Zpos p < 2 ^ 53)%Z ->
  Prim2SF (Js.float_of_Z (Zneg p)) = SFopp (Js.canonical_of_pos p).
Proof.
  intro Hp. unfold Js.float_of_Z. rewrite opp_spec, Prim2SF_SF2Prim by (apply canonical_of_pos_valid, Hp).
  reflexivity.
Qed.

End FloatFacts.

(** ** The scores are integers between 0 and 100 *)

Module ScoreFacts.
Import FloatFacts Binary64.
Local Open Scope float_scope.

Lemma clamp_eq (r : float) :
  Js.Math_max 0 (Js.Math_min 100 r)
  = if is_nan r then nan else if 100 <? r then 100 else if 0 <? r then r else 0.
Proof.
  unfold Js.Math_max, Js.Math_min.
  change (is_nan 100) with false. change (is_nan 0) with false.
  change (get_sign 100) with false. change (get_sign 0) with false.
  destruct (is_nan r) eqn:Hn; [reflexivity|]. simpl.
  destruct (100 <? r) eqn:H1.
  - reflexivity.
  - destruct (r <? 100); simpl; rewrite ?Hn; simpl;
      destruct (0 <? r); simpl; try reflexivity; destruct (r <? 0); reflexivity.
Qed.

Lemma valid_mantissa_bound (b : bool) (m : positive) (e : Z) :
  valid_binary (S754_finite b m e) = true -> (Zpos m < 2 ^ 53)%Z.
Proof.
  cbn [SpecFloat.valid_binary]. unfold bounded, canonical_mantissa.
  intro H. apply andb_prop in H as [H _]. apply Z.eqb_eq in H.
  unfold fexp, emin, FloatOps.prec, FloatOps.emax in H.
  pose proof (digits2_pos_bound m) as [_ Hhi].
  assert (Hd : (Zpos (digits2_pos m) <= 53)%Z) by lia.
  eapply Z.lt_le_trans; [exact Hhi|]. apply Z.pow_le_mono_r; lia.
Qed.

Lemma round_quotient_bound (m : positive) (e : Z) (s : bool) :
  (Zpos m < 2 ^ 53)%Z -> (e < 0)%Z ->
  let sm := if s then Zneg m else Zpos m in
  (- 2 ^ 53 < (2 * sm + 2 ^ (- e)) / 2 ^ (1 - e) < 2 ^ 53)%Z.
Proof.
  intros Hm He sm.
  set (K := (2 ^ (- e))%Z).
  assert (HK : (2 <= K)%Z).
  { unfold K. replace 2%Z with (2 ^ 1)%Z at 1 by reflexivity.
    apply Z.pow_le_mono_r; lia. }
  assert (HK2 : (2 ^ (1 - e) = 2 * K)%Z).
  { unfold K. replace (1 - e)%Z with (Z.succ (- e)) by lia.
    apply Z.pow_succ_r. lia. }
  rewrite HK2.
  set (n := ((2 * sm + K) / (2 * K))%Z).
  pose proof (Z.mul_div_le (2 * sm + K) (2 * K) ltac:(lia)) as H1.
  pose proof (Z.mul_succ_div_gt (2 * sm + K) (2 * K) ltac:(lia)) as H2.
  fold n in H1, H2.
  assert (Hsm : (- 2 ^ 53 < sm < 2 ^ 53)%Z) by (unfold sm; destruct s; lia).
  split; nia.
Qed.

Lemma round_shape (s : float) :
  Prim2SF s <> S754_nan ->
  (exists b, Prim2SF (Js.Math_round s) = S754_zero b) \/
  (exists b, Prim2SF (Js.Math_round s) = S754_infinity b) \/
  (exists b m e, Prim2SF (Js.Math_round s) = S754_finite b m e /\ (0 <= e)%Z) \/
  (exists p, (Zpos p < 2 ^ 53)%Z /\
     (Js.Math_round s = Js.float_of_Z (Zpos p) \/ Js.Math_round s = Js.float_of_Z (Zneg p))).
Proof.
  intro Hs. unfold Js.Math_round.
  pose proof (Prim2SF_valid s) as Hv.
  destruct (Prim2SF s) as [b|b| |b m e] eqn:E.
  - left. exists b. exact E.
  - right; left. exists b. exact E.
  - congruence.
  - destruct (0 <=? e)%Z eqn:He.
    + right; right; left. exists b, m, e. split; [exact E | apply Z.leb_le, He].
    + apply Z.leb_gt in He.
      pose proof (round_quotient_bound m e b (valid_mantissa_bound _ _ _ Hv) He) as Hq.
      cbv zeta in *.
      set (n := ((2 * (if b then Z.neg m else Z.pos m) + 2 ^ (- e)) / 2 ^ (1 - e))%Z) in *.
      destruct (n =? 0)%Z eqn:Hn.
      * left. destruct b; [exists true | exists false]; reflexivity.
      * right; right; right. destruct n as [|p|p]; [discriminate| |].
        -- exists p. split; [lia | left; reflexivity].
        -- exists p. split; [lia | right; reflexivity].
Qed.

Lemma iter_xO_compare (k : nat) (a b : positive) :
  Pos.compare_cont Eq (Nat.iter k xO a) (Nat.iter k xO b) = Pos.compare_cont Eq a b.
Proof. induction k as [|k IH]; simpl; [reflexivity | exact IH]. Qed.

Lemma clamp_round_in (s : float) :
  Prim2SF s <> S754_nan ->
  exists n, (0 <= n <= 100)%Z /\
    Js.Math_max 0 (Js.Math_min 100 (Js.Math_round s)) = Js.float_of_Z n.
Proof.
  intro Hs. rewrite clamp_eq.
  set (r := Js.Math_round s).
  assert (Hr : Prim2SF r <> S754_nan).
  { unfold r. destruct (round_shape s Hs) as [[b H]|[[b H]|[[b [m [e [H _]]]]|[p [Hp [H|H]]]]]];
      rewrite ?H; try discriminate;
      [rewrite Prim2SF_float_of_pos by exact Hp | rewrite Prim2SF_float_of_neg by exact Hp];
      discriminate. }
  rewrite (proj2 (is_nan_false r) Hr), !ltb_spec.
  change (Prim2SF 100) with (S754_finite false 7036874417766400 (-46)).
  change (Prim2SF 0) with (S754_zero false).
  destruct (round_shape s Hs) as [[b H]|[[b H]|[[b [m [e [H He]]]]|[p [Hp [H|H]]]]]];
    fold r in H.
  - rewrite H. exists 0%Z. split; [lia | reflexivity].
  - rewrite H. destruct b; [exists 0%Z | exists 100%Z]; split; try lia; reflexivity.
  - rewrite H. destruct b.
    + exists 0%Z. split; [lia | reflexivity].
    + exists 100%Z. unfold SFltb; simpl.
      destruct e as [|e|e]; try lia; split; try lia; reflexivity.
  - rewrite H, Prim2SF_float_of_pos by exact Hp. rewrite <- H.
    unfold Js.canonical_of_pos, SFltb. cbn [SFcompare].
    pose proof (digits2_pos_bound p) as [Hlo Hhi].
    destruct (Z.compare_spec (-46) (Zpos (digits2_pos p) - 53)) as [Hd|Hd|Hd].
    + assert (Hd7 : Zpos (digits2_pos p) = 7%Z) by lia.
      rewrite Hd7. change (Z.to_nat (53 - 7)) with 46%nat.
      change 7036874417766400%positive with (Nat.iter 46 xO 100%positive).
      rewrite iter_xO_compare.
      destruct (Pos.compare_cont Eq 100 p) eqn:Hc.
      * exists (Zpos p). split; [|exact H].
        apply Pos.compare_eq in Hc. subst p. lia.
      * exists 100%Z. split; [lia | reflexivity].
      * exists (Zpos p). split; [|exact H].
        change (Pos.compare 100 p = Gt) in Hc. rewrite Pos.compare_gt_iff in Hc. lia.
    + exists 100%Z. split; [lia | reflexivity].
    + exists (Zpos p). split; [|exact H].
      assert (2 ^ Zpos (digits2_pos p) <= 2 ^ 6)%Z by (apply Z.pow_le_mono_r; lia).
      change (2 ^ 6)%Z with 64%Z in *. lia.
  - rewrite H, Prim2SF_float_of_neg by exact Hp.
    exists 0%Z. split; [lia | reflexivity].
Qed.

(** *** Arithmetic on numbers never produces NaN from non-NaN operands,
    except [Infinity - Infinity] and [0 * Infinity], which the scoring
    never meets. *)

Lemma shr_1_nonneg (mrs : shr_record) :
  (0 <= shr_m mrs)%Z -> (0 <= shr_m (shr_1 mrs))%Z.
Proof.
  destruct mrs as [m r s]; simpl.
  destruct m as [|[p|p|]|p]; simpl; lia.
Qed.

Lemma iter_shr_1_nonneg (p : positive) : forall mrs,
  (0 <= shr_m mrs)%Z -> (0 <= shr_m (iter_pos shr_1 p mrs))%Z.
Proof.
  induction p as [p IH|p IH|]; intros mrs H; simpl.
  - apply IH, IH, shr_1_nonneg, H.
  - apply IH, IH, H.
  - apply shr_1_nonneg, H.
Qed.

Lemma shr_fexp_nonneg (m e : Z) (l : location) :
  (0 <= m)%Z -> (0 <= shr_m (fst (shr_fexp prec emax m e l)))%Z.
Proof.
  intro Hm. unfold shr_fexp, shr.
  destruct (fexp prec emax (Zdigits2 m + e) - e)%Z; simpl;
    try apply iter_shr_1_nonneg; destruct l as [|[]]; simpl; exact Hm.
Qed.

Lemma round_nearest_even_nonneg (mx : Z) (lx : location) :
  (0 <= mx)%Z -> (0 <= round_nearest_even mx lx)%Z.
Proof.
  intro H. destruct lx as [|[]]; simpl; try lia. destruct (Z.even mx); lia.
Qed.

Lemma binary_round_aux_not_nan (sx : bool) (mx ex : Z) (lx : location) :
  (0 <= mx)%Z -> binary_round_aux prec emax sx mx ex lx <> S754_nan.
Proof.
  intro Hm. unfold binary_round_aux.
  pose proof (shr_fexp_nonneg mx ex lx Hm) as H1.
  destruct (shr_fexp prec emax mx ex lx) as [mrs' e'] eqn:E1. simpl in H1.
  pose proof (shr_fexp_nonneg (round_nearest_even (shr_m mrs') (loc_of_shr_record mrs')) e'
                loc_Exact (round_nearest_even_nonneg _ _ H1)) as H2.
  destruct (shr_fexp prec emax (round_nearest_even (shr_m mrs') (loc_of_shr_record mrs')) e'
              loc_Exact) as [mrs'' e''] eqn:E2. simpl in H2.
  destruct (shr_m mrs'') as [|m|m]; [discriminate| |lia].
  destruct (e'' <=? emax - prec)%Z; discriminate.
Qed.

Lemma binary_normalize_not_nan (m e : Z) (b : bool) :
  binary_normalize prec emax m e b <> S754_nan.
Proof.
  destruct m as [|m|m]; simpl; [discriminate| |];
    unfold binary_round; destruct (shl_align _ _ _) as [mz ez];
    apply binary_round_aux_not_nan; lia.
Qed.


Lemma add_not_nan (x y : float) :
  Prim2SF x <> S754_nan -> sf_fin (Prim2SF y) -> Prim2SF (x + y) <> S754_nan.
Proof.
  rewrite add_spec. unfold SF64add.
  destruct (Prim2SF x) as [sx|sx| |sx mx ex], (Prim2SF y) as [sy|sy| |sy my ey];
    simpl; intros Hx Hy; try contradiction; try discriminate;
    try apply binary_normalize_not_nan; destruct sx, sy; discriminate.
Qed.

Lemma sub_not_nan (x y : float) :
  Prim2SF x <> S754_nan -> sf_fin (Prim2SF y) -> Prim2SF (x - y) <> S754_nan.
Proof.
  rewrite sub_spec. unfold SF64sub.
  destruct (Prim2SF x) as [sx|sx| |sx mx ex], (Prim2SF y) as [sy|sy| |sy my ey];
    simpl; intros Hx Hy; try contradiction; try discriminate;
    try apply binary_normalize_not_nan; destruct sx, sy; discriminate.
Qed.

Lemma sub_not_nan' (x y : float) :
  sf_fin (Prim2SF x) -> Prim2SF y <> S754_nan -> Prim2SF (x - y) <> S754_nan.
Proof.
  rewrite sub_spec. unfold SF64sub.
  destruct (Prim2SF x) as [sx|sx| |sx mx ex], (Prim2SF y) as [sy|sy| |sy my ey];
    simpl; intros Hx Hy; try contradiction; try discriminate;
    try apply binary_normalize_not_nan; destruct sx, sy; discriminate.
Qed.

Lemma mul_not_nan (x y : float) :
  Prim2SF x <> S754_nan -> (exists b m e, Prim2SF y = S754_finite b m e) ->
  Prim2SF (x * y) <> S754_nan.
Proof.
  rewrite mul_spec. unfold SF64mul. intros Hx [b [m [e Hy]]]. rewrite Hy.
  destruct (Prim2SF x) as [sx|sx| |sx mx ex]; simpl; try discriminate; try contradiction.
  apply binary_round_aux_not_nan. lia.
Qed.

Lemma min_not_nan (x y : float) :
  Prim2SF x <> S754_nan -> Prim2SF y <> S754_nan -> Prim2SF (Js.Math_min x y) <> S754_nan.
Proof.
  intros Hx Hy. unfold Js.Math_min.
  rewrite (proj2 (is_nan_false x) Hx), (proj2 (is_nan_false y) Hy). simpl.
  destruct (x <? y); [exact Hx|]. destruct (y <? x); [exact Hy|].
  destruct (get_sign x); assumption.
Qed.

Ltac closed_term t := tryif (match t with context [?x] => is_var x end) then fail else idtac.

Ltac num_fin :=
  first [ assumption
        | lazymatch goal with
          | |- sf_fin (Prim2SF ?b) => closed_term b; vm_compute; exact I
          | |- exists b m e, Prim2SF ?c = S754_finite b m e =>
              closed_term c; vm_compute; do 3 eexists; reflexivity
          end ].

Ltac not_nan :=
  lazymatch goal with
  | |- Prim2SF (?a + ?b) <> S754_nan => apply add_not_nan; [not_nan | num_fin]
  | |- Prim2SF (?a - ?b) <> S754_nan =>
      first [ apply sub_not_nan; [not_nan | num_fin]
            | apply sub_not_nan'; [num_fin | not_nan] ]
  | |- Prim2SF (?a * ?b) <> S754_nan => apply mul_not_nan; [not_nan | num_fin]
  | |- Prim2SF (Js.Math_min ?a ?b) <> S754_nan => apply min_not_nan; not_nan
  | |- Prim2SF ?c <> S754_nan =>
      first [ assumption | closed_term c; vm_compute; discriminate ]
  end.

Lemma scoreSteps_not_nan (config : ActivityConfig.t) (avgTemp : float) (hasRain isWindy : bool) :
  Prim2SF avgTemp <> S754_nan ->
  sf_fin (Prim2SF (ActivityConfig.idealTempMin config)) ->
  sf_fin (Prim2SF (ActivityConfig.idealTempMax config)) ->
  sf_fin (Prim2SF ((1 - ActivityConfig.rainTolerance config) * 20)) ->
  sf_fin (Prim2SF (ActivityConfig.windPreference config * 15 - 7.5)) ->
  Prim2SF (fst (ActivityRankingService.scoreSteps config avgTemp hasRain isWindy)) <> S754_nan.
Proof.
  intros Havg Hmin Hmax Hrain Hwind.
  unfold ActivityRankingService.scoreSteps.
  repeat match goal with |- context [if ?b then _ else _] => destruct b end;
    cbn [fst];
    unfold ActivityRankingService.RAIN_IMPACT_MULTIPLIER,
      ActivityRankingService.WIND_IMPACT_MULTIPLIER, ActivityRankingService.WIND_OFFSET;
    not_nan.
Qed.

End ScoreFacts.

(** ** Insertion sort: sortedness and stability *)

Module SortFacts.
Import ListOrder.

Lemma before_cons {A} (a b c : A) (l : list A) :
  before a b (c :: l) <-> (a = c /\ In b l) \/ before a b l.
Proof.
  split.
  - intros [l1 [l2 [l3 E]]]. destruct l1 as [|d l1]; simpl in E; injection E as -> E.
    + left. split; [reflexivity|]. subst l. apply in_or_app. right. left. reflexivity.
    + right. exists l1, l2, l3. exact E.
  - intros [[-> Hb]|[l1 [l2 [l3 E]]]].
    + apply in_split in Hb as [l2 [l3 ->]]. exists [], l2, l3. reflexivity.
    + exists (c :: l1), l2, l3. subst l. reflexivity.
Qed.

Lemma before_app_l {A} (a b : A) (l m : list A) : before a b l -> before a b (l ++ m).
Proof.
  intros [l1 [l2 [l3 ->]]]. exists l1, l2, (l3 ++ m).
  rewrite <- app_assoc. simpl. rewrite <- app_assoc. reflexivity.
Qed.

Lemma before_firstn {A} (a b : A) (k : nat) (l : list A) :
  before a b (firstn k l) -> before a b l.
Proof.
  intro H. rewrite <- (firstn_skipn k l). apply before_app_l, H.
Qed.

Lemma before_map {A B} (f : A -> B) (a b : A) (l : list A) :
  before a b l -> before (f a) (f b) (map f l).
Proof.
  intros [l1 [l2 [l3 ->]]]. exists (map f l1), (map f l2), (map f l3).
  rewrite map_app. simpl. rewrite map_app. reflexivity.
Qed.

Lemma before_In {A} (a b : A) (l : list A) : before a b l -> In a l /\ In b l.
Proof.
  intros [l1 [l2 [l3 ->]]]. split; apply in_or_app; right; simpl; [left; reflexivity|].
  right. apply in_or_app. right. left. reflexivity.
Qed.

Lemma In_firstn {A} (x : A) (k : nat) (l : list A) : In x (firstn k l) -> In x l.
Proof.
  intro H. rewrite <- (firstn_skipn k l). apply in_or_app. left. exact H.
Qed.

Section Insertion.
Context {A : Type} (cmp : A -> A -> float).

Lemma In_insert (x y : A) (l : list A) : In y (Js.insert cmp x l) <-> y = x \/ In y l.
Proof.
  induction l as [|z l IH]; simpl.
  - intuition congruence.
  - destruct (0 <? cmp x z)%float; simpl; rewrite ?IH; intuition congruence.
Qed.

Lemma In_sort (y : A) (l : list A) : In y (Js.sort cmp l) <-> In y l.
Proof.
  induction l as [|x l IH]; simpl; [tauto|].
  rewrite In_insert, IH. intuition congruence.
Qed.

Lemma length_insert (x : A) (l : list A) : List.length (Js.insert cmp x l) = S (List.length l).
Proof.
  induction l as [|z l IH]; simpl; [reflexivity|].
  destruct (0 <? cmp x z)%float; simpl; rewrite ?IH; reflexivity.
Qed.

Lemma length_sort (l : list A) : List.length (Js.sort cmp l) = List.length l.
Proof.
  induction l as [|x l IH]; simpl; [reflexivity|]. rewrite length_insert, IH. reflexivity.
Qed.

(** Stability: an element is inserted just before the first element it does
    not have to pass, so two elements it passes keep their order, and an
    element never passes one that it does not compare greater than. *)
Lemma insert_before (x a b : A) (m : list A) :
  before a b (Js.insert cmp x m) -> (0 <? cmp b a)%float = false ->
  before a b m \/ (a = x /\ In b m).
Proof.
  intros H Hba. induction m as [|y m IH]; simpl in H.
  - apply before_cons in H as [[_ []]|[l1 [l2 [l3 E]]]].
    destruct l1 as [|? [|]]; discriminate.
  - destruct (0 <? cmp x y)%float eqn:Hxy.
    + apply before_cons in H as [[-> Hb]|H].
      * apply In_insert in Hb as [->|Hb]; [congruence|].
        left. apply before_cons. left. split; [reflexivity | exact Hb].
      * destruct (IH H) as [H'|[-> Hb]].
        -- left. apply before_cons. right. exact H'.
        -- right. split; [reflexivity | right; exact Hb].
    + apply before_cons in H as [[-> Hb]|H].
      * right. split; [reflexivity | exact Hb].
      * left. exact H.
Qed.

Lemma sort_before (a b : A) (l : list A) :
  before a b (Js.sort cmp l) -> (0 <? cmp b a)%float = false -> before a b l.
Proof.
  intros H Hba. induction l as [|x l IH]; simpl in H.
  - destruct H as [l1 [l2 [l3 E]]]. destruct l1; discriminate.
  - destruct (insert_before x a b _ H Hba) as [H'|[-> Hb]]; apply before_cons.
    + right. apply IH, H'.
    + left. split; [reflexivity | apply In_sort, Hb].
Qed.

(** Sortedness, for a comparator that is consistent on a domain [P]. *)
Variable P : A -> Prop.
Hypothesis cmp_asym : forall x y, P x -> P y ->
  (0 <? cmp x y)%float = true -> (0 <? cmp y x)%float = false.
Hypothesis cmp_trans : forall x y z, P x -> P y -> P z ->
  (0 <? cmp x y)%float = false -> (0 <? cmp y z)%float = false -> (0 <? cmp x z)%float = false.

Let keeps (x y : A) : Prop := (0 <? cmp x y)%float = false.

Lemma insert_sorted (x : A) (l : list A) :
  P x -> Forall P l -> StronglySorted keeps l -> StronglySorted keeps (Js.insert cmp x l).
Proof.
  intros Px. induction l as [|y l IH]; intros HP HS; simpl.
  - constructor; constructor.
  - inversion HP as [|? ? Py HP']; subst. inversion HS as [|? ? HS' Hy]; subst.
    destruct (0 <? cmp x y)%float eqn:Hxy.
    + constructor; [apply IH; assumption|].
      apply Forall_forall. intros z Hz. apply In_insert in Hz as [->|Hz].
      * apply cmp_asym; assumption.
      * rewrite Forall_forall in Hy. apply Hy, Hz.
    + constructor; [constructor; assumption|].
      constructor; [exact Hxy|].
      apply Forall_forall. intros z Hz.
      rewrite Forall_forall in Hy, HP'.
      exact (cmp_trans x y z Px Py (HP' z Hz) Hxy (Hy z Hz)).
Qed.

Lemma sort_sorted (l : list A) : Forall P l -> StronglySorted keeps (Js.sort cmp l).
Proof.
  induction l as [|x l IH]; intro HP; simpl; [constructor|].
  inversion HP; subst. apply insert_sorted; auto.
  apply Forall_forall. intros z Hz. change (In z (Js.sort cmp l)) in Hz.
  rewrite In_sort in Hz. rewrite Forall_forall in HP. apply HP. right. exact Hz.
Qed.

Lemma sort_before_keeps (a b : A) (l : list A) :
  Forall P l -> before a b (Js.sort cmp l) -> (0 <? cmp a b)%float = false.
Proof.
  intro HP. generalize (sort_sorted l HP). generalize (Js.sort cmp l) as m.
  induction m as [|c m IH]; intros HS H.
  - destruct H as [l1 [? [? E]]]. destruct l1; discriminate.
  - inversion HS as [|? ? HS' Hc]; subst.
    apply before_cons in H as [[-> Hb]|H].
    + rewrite Forall_forall in Hc. apply Hc, Hb.
    + apply IH; assumption.
Qed.

End Insertion.

End SortFacts.

(** ** Ranking: the scores, the order and the length *)

Module RankingFacts.
Import FloatFacts Binary64 ScoreFacts SortFacts ActivityRankingService.
Local Open Scope float_scope.
Local Open Scope bool_scope.

Lemma int_score_check :
  let R := map Z.of_nat (seq 0 101) in
  forallb (fun n => forallb (fun m =>
      Bool.eqb (0 <? Js.float_of_Z m - Js.float_of_Z n) (n <? m)%Z &&
      Bool.eqb (Js.float_of_Z n <? Js.float_of_Z m) (n <? m)%Z &&
      Bool.eqb (Js.float_of_Z n =? Js.float_of_Z m) (n =? m)%Z) R) R = true.
Proof. vm_compute. reflexivity. Qed.

Lemma in_score_range (n : Z) : (0 <= n <= 100)%Z -> In n (map Z.of_nat (seq 0 101)).
Proof.
  intro Hn. apply in_map_iff. exists (Z.to_nat n). split; [apply Z2Nat.id; lia|].
  apply in_seq. lia.
Qed.

Lemma int_score_facts (n m : Z) : (0 <= n <= 100)%Z -> (0 <= m <= 100)%Z ->
  (0 <? Js.float_of_Z m - Js.float_of_Z n) = (n <? m)%Z /\
  (Js.float_of_Z n <? Js.float_of_Z m) = (n <? m)%Z /\
  (Js.float_of_Z n =? Js.float_of_Z m) = (n =? m)%Z.
Proof.
  intros Hn Hm. pose proof int_score_check as H. cbv zeta in H.
  rewrite forallb_forall in H. specialize (H n (in_score_range n Hn)).
  rewrite forallb_forall in H. specialize (H m (in_score_range m Hm)).
  apply andb_prop in H as [H H3]. apply andb_prop in H as [H1 H2].
  apply Bool.eqb_prop in H1, H2, H3. auto.
Qed.

Definition int_score (a : Activity.t) : Prop :=
  exists n, (0 <= n <= 100)%Z /\ Activity.suitabilityScore a = Js.float_of_Z n.

Lemma suitabilityScore_scoreActivity c avg h w p ws :
  Activity.suitabilityScore (scoreActivity c avg h w p ws)
  = Js.Math_max 0 (Js.Math_min 100 (Js.Math_round (fst (scoreSteps c avg h w)))).
Proof. unfold scoreActivity. destruct (scoreSteps c avg h w). reflexivity. Qed.


Lemma names_scoredActivities (f : DailyForecastSummary) :
  map Activity.name (scoredActivities f) = map ActivityConfig.name ACTIVITY_CONFIGS.
Proof.
  unfold scoredActivities. rewrite map_map. apply map_ext. intro c.
  unfold scoreActivity. destruct (scoreSteps _ _ _ _). reflexivity.
Qed.

Lemma in_scoredActivities (f : DailyForecastSummary) (a : Activity.t) :
  In a (scoredActivities f) ->
  exists c, In c ACTIVITY_CONFIGS /\
    a = scoreActivity c ((maxTemp f + minTemp f) / 2) (RAIN_THRESHOLD <? precipitation f)
          (WIND_THRESHOLD <? windSpeed f) (precipitation f) (windSpeed f).
Proof.
  unfold scoredActivities. intro H. apply in_map_iff in H as [c [<- Hc]].
  exists c. split; [exact Hc | reflexivity].
Qed.

Lemma configs_steps_not_nan (c : ActivityConfig.t) (avg : float) (h w : bool) :
  In c ACTIVITY_CONFIGS -> Prim2SF avg <> S754_nan ->
  Prim2SF (fst (scoreSteps c avg h w)) <> S754_nan.
Proof.
  intros Hc Havg.
  simpl in Hc; destruct Hc as [<-|[<-|[<-|[<-|[]]]]];
    apply scoreSteps_not_nan; try exact Havg; num_fin.
Qed.

Lemma scoredActivities_int (f : DailyForecastSummary) (a : Activity.t) :
  Prim2SF ((maxTemp f + minTemp f) / 2) <> S754_nan ->
  In a (scoredActivities f) -> int_score a.
Proof.
  intros Havg Ha. apply in_scoredActivities in Ha as [c [Hc ->]].
  unfold int_score. rewrite suitabilityScore_scoreActivity.
  apply clamp_round_in, configs_steps_not_nan; assumption.
Qed.

Lemma scoredActivities_nan (f : DailyForecastSummary) (a : Activity.t) :
  Prim2SF ((maxTemp f + minTemp f) / 2) = S754_nan ->
  In a (scoredActivities f) -> is_nan (Activity.suitabilityScore a) = true.
Proof.
  intros Havg Ha. apply in_scoredActivities in Ha as [c [Hc ->]].
  assert (E : (maxTemp f + minTemp f) / 2 = nan)
    by (apply Prim2SF_inj; rewrite Havg; reflexivity).
  rewrite E. simpl in Hc.
  destruct Hc as [<-|[<-|[<-|[<-|[]]]]];
    destruct (RAIN_THRESHOLD <? precipitation f), (WIND_THRESHOLD <? windSpeed f);
    vm_compute; reflexivity.
Qed.

Lemma score_cases (f : DailyForecastSummary) :
  (forall a, In a (scoredActivities f) -> int_score a) \/
  (forall a, In a (scoredActivities f) -> is_nan (Activity.suitabilityScore a) = true).
Proof.
  destruct (Prim2SF ((maxTemp f + minTemp f) / 2)) eqn:E;
    try (left; intros a Ha; apply (scoredActivities_int f a); [rewrite E; discriminate | exact Ha]).
  right. intros a Ha. apply (scoredActivities_nan f a E Ha).
Qed.

Lemma nan_ltb (x y : float) : is_nan x = true -> (x <? y) = false.
Proof. intro H. apply is_nan_spec in H. rewrite ltb_spec, H. reflexivity. Qed.

Lemma nan_eqb (x y : float) : is_nan x = true -> (x =? y) = false.
Proof.
  intro H. apply is_nan_spec in H. rewrite FloatAxioms.eqb_spec, H. reflexivity.
Qed.

Lemma int_asym (x y : Activity.t) : int_score x -> int_score y ->
  (0 <? byScoreDesc x y) = true -> (0 <? byScoreDesc y x) = false.
Proof.
  intros [n [Hn Ex]] [m [Hm Ey]]. unfold byScoreDesc. rewrite Ex, Ey.
  rewrite (proj1 (int_score_facts n m Hn Hm)), (proj1 (int_score_facts m n Hm Hn)).
  intro H. apply Z.ltb_lt in H. apply Z.ltb_ge. lia.
Qed.

Lemma int_trans (x y z : Activity.t) : int_score x -> int_score y -> int_score z ->
  (0 <? byScoreDesc x y) = false -> (0 <? byScoreDesc y z) = false ->
  (0 <? byScoreDesc x z) = false.
Proof.
  intros [n [Hn Ex]] [m [Hm Ey]] [k [Hk Ez]]. unfold byScoreDesc. rewrite Ex, Ey, Ez.
  rewrite (proj1 (int_score_facts n m Hn Hm)), (proj1 (int_score_facts m k Hm Hk)),
    (proj1 (int_score_facts n k Hn Hk)).
  intros H1 H2. apply Z.ltb_ge in H1, H2. apply Z.ltb_ge. lia.
Qed.

Lemma length_scoredActivities (f : DailyForecastSummary) :
  List.length (scoredActivities f) = 4%nat.
Proof. unfold scoredActivities. rewrite length_map. reflexivity. Qed.

Lemma rank_firstn (f : DailyForecastSummary) (top : Z) :
  exists k, rankActivitiesForDay f top = firstn k (Js.sort byScoreDesc (scoredActivities f)).
Proof. eexists. reflexivity. Qed.

Lemma in_rank (f : DailyForecastSummary) (top : Z) (a : Activity.t) :
  In a (rankActivitiesForDay f top) -> In a (scoredActivities f).
Proof.
  destruct (rank_firstn f top) as [k ->]. intro H.
  apply In_firstn in H. apply In_sort in H. exact H.
Qed.

End RankingFacts.

(** ** The ranking claims *)

Module RankingClaims.
Import FloatFacts Binary64 ScoreFacts SortFacts RankingFacts ActivityRankingService.
Local Open Scope float_scope.

(** C2 (as corrected): for every [top], no activity in the result of
    [rankActivitiesForDay] is followed by one with a strictly greater
    score; the result has [min(top, 4)] activities for a non-negative
    [top] and, since [slice] counts a negative end from the back,
    [max(4 + top, 0)] activities for a negative [top]. *)
Theorem rank_sorted_length (f : DailyForecastSummary) (top : Z) :
  Z.of_nat (List.length (rankActivitiesForDay f top))
    = (if (top <? 0)%Z then Z.max (4 + top) 0 else Z.min top 4) /\
  (forall a b, ListOrder.before a b (rankActivitiesForDay f top) ->
     (Activity.suitabilityScore a <? Activity.suitabilityScore b) = false).
Proof.
  split.
  - unfold rankActivitiesForDay, Js.slice0.
    rewrite length_sort, length_scoredActivities.
    rewrite length_firstn, length_sort, length_scoredActivities.
    destruct (top <? 0)%Z eqn:E; [apply Z.ltb_lt in E | apply Z.ltb_ge in E]; lia.
  - intros a b H.
    destruct (score_cases f) as [Hint|Hnan].
    + pose proof (before_In a b _ H) as [Ha Hb].
      apply in_rank in Ha, Hb.
      destruct (rank_firstn f top) as [k Ek]. rewrite Ek in H.
      apply before_firstn in H.
      pose proof (sort_before_keeps byScoreDesc int_score int_asym int_trans a b
                    (scoredActivities f) (proj2 (Forall_forall _ _) Hint) H) as Hk.
      destruct (Hint a Ha) as [n [Hn Ea]], (Hint b Hb) as [m [Hm Eb]].
      unfold byScoreDesc in Hk. rewrite Ea, Eb in *.
      rewrite (proj1 (int_score_facts n m Hn Hm)) in Hk.
      rewrite (proj1 (proj2 (int_score_facts n m Hn Hm))). exact Hk.
    + apply nan_ltb, Hnan, (in_rank f top), (before_In a b _ H).
Qed.

Lemma rank_sorted_length_witness :
  Z.of_nat (List.length (rankActivitiesForDay (mkSummary "2024-01-01" 18 15 "Cloudy" 15 10) 2))
    = Z.min 2 4 /\
  Z.of_nat (List.length (rankActivitiesForDay (mkSummary "2024-01-01" 18 15 "Cloudy" 15 10) (-1)))
    = Z.max (4 + -1) 0.
Proof.
  split.
  - exact (proj1 (rank_sorted_length (mkSummary "2024-01-01" 18 15 "Cloudy" 15 10) 2)).
  - exact (proj1 (rank_sorted_length (mkSummary "2024-01-01" 18 15 "Cloudy" 15 10) (-1))).
Defined.

(** C2, as stated, fails for a negative [top]: with [top = -1] three
    activities are returned, not [min(-1, 4)]. *)
Lemma rank_length_negative_top :
  exists f, Z.of_nat (List.length (rankActivitiesForDay f (-1))) <> Z.min (-1) 4.
Proof.
  exists (mkSummary "2024-01-01" 22 18 "Clear sky" 0 5). vm_compute. discriminate.
Qed.




(** C6: two activities of equal score appear in the ranking in the order
    of the profile table ([skiing], [surfing], [indoor_sightseeing],
    [outdoor_sightseeing]): the sort is stable. *)
Theorem rank_stable (f : DailyForecastSummary) (top : Z) (a b : Activity.t) :
  ListOrder.before a b (rankActivitiesForDay f top) ->
  (Activity.suitabilityScore a =? Activity.suitabilityScore b) = true ->
  ListOrder.before a b (scoredActivities f) /\
  ListOrder.before (Activity.name a) (Activity.name b) (map ActivityConfig.name ACTIVITY_CONFIGS).
Proof.
  intros H Heq.
  pose proof (before_In a b _ H) as [Ha Hb]. apply in_rank in Ha, Hb.
  assert (Hba : (0 <? byScoreDesc b a) = false).
  { destruct (score_cases f) as [Hint|Hnan].
    - destruct (Hint a Ha) as [n [Hn Ea]], (Hint b Hb) as [m [Hm Eb]].
      unfold byScoreDesc. rewrite Ea, Eb in *.
      rewrite (proj2 (proj2 (int_score_facts n m Hn Hm))) in Heq.
      apply Z.eqb_eq in Heq. subst m.
      rewrite (proj1 (int_score_facts n n Hn Hn)). apply Z.ltb_irrefl.
    - rewrite nan_eqb in Heq by (apply Hnan, Ha). discriminate. }
  destruct (rank_firstn f top) as [k Ek]. rewrite Ek in H.
  apply before_firstn in H. apply sort_before in H; [|exact Hba].
  split; [exact H|].
  rewrite <- names_scoredActivities with (f := f).
  apply before_map, H.
Qed.

Lemma rank_stable_witness :
  let f := mkSummary "2024-01-01" 22 18 "Clear sky" 0 5 in
  let a := Activity.mk "surfing" 80 "ideal temperature" in
  let b := Activity.mk "indoor_sightseeing" 80 "ideal temperature" in
  ListOrder.before a b (rankActivitiesForDay f 4) /\
  (Activity.suitabilityScore a =? Activity.suitabilityScore b) = true /\
  ListOrder.before a b (scoredActivities f).
Proof.
  intros f a b.
  assert (H1 : ListOrder.before a b (rankActivitiesForDay f 4)).
  { vm_compute. eexists [_], [], [_]. reflexivity. }
  assert (H2 : (Activity.suitabilityScore a =? Activity.suitabilityScore b) = true)
    by (vm_compute; reflexivity).
  split; [exact H1|]. split; [exact H2|].
  exact (proj1 (rank_stable f 4 a b H1 H2)).
Defined.

(** C7: on [{maxTemp: 22, minTemp: 18, precipitation: 0, windSpeed: 5}]
    with [top = 1] the ranking is the single activity
    [outdoor_sightseeing], of score 90 (so above 80). *)
Theorem rank_scenario_mild (date conditions : string) :
  rankActivitiesForDay (mkSummary date 22 18 conditions 0 5) 1
    = [Activity.mk "outdoor_sightseeing" 90 "ideal temperature, no rain"] /\
  (80 <? 90) = true.
Proof. split; vm_compute; reflexivity. Qed.

(** C10 (as corrected): for [-4 <= top <= -1] the ranking is the first
    [4 + top] activities of the sorted list, as [slice] counts a negative
    end from the back: three for [-1], two for [-2], one for [-3], and
    none for [-4]. *)
Theorem rank_negative_top (f : DailyForecastSummary) (top : Z) :
  (-4 <= top <= -1)%Z ->
  rankActivitiesForDay f top
    = firstn (Z.to_nat (4 + top)) (Js.sort byScoreDesc (scoredActivities f)) /\
  List.length (rankActivitiesForDay f top) = Z.to_nat (4 + top).
Proof.
  intro Htop.
  assert (E : rankActivitiesForDay f top
              = firstn (Z.to_nat (4 + top)) (Js.sort byScoreDesc (scoredActivities f))).
  { unfold rankActivitiesForDay, Js.slice0.
    rewrite length_sort, length_scoredActivities.
    destruct (top <? 0)%Z eqn:Hlt; [|apply Z.ltb_ge in Hlt; lia].
    f_equal. f_equal. lia. }
  split; [exact E|]. rewrite E, length_firstn, length_sort, length_scoredActivities. lia.
Qed.

Lemma rank_negative_top_witness :
  (-4 <= -1 <= -1)%Z /\
  List.length (rankActivitiesForDay (mkSummary "2024-01-01" 22 18 "Clear sky" 0 5) (-1)) = 3%nat.
Proof.
  split; [lia|].
  exact (proj2 (rank_negative_top (mkSummary "2024-01-01" 22 18 "Clear sky" 0 5) (-1)
                  ltac:(lia))).
Defined.

(** C10, as stated, fails at [top = -4]: the ranking is then empty. *)
Lemma rank_top_minus_four_empty :
  rankActivitiesForDay (mkSummary "2024-01-01" 22 18 "Clear sky" 0 5) (-4) = [].
Proof. vm_compute. reflexivity. Qed.

End RankingClaims.

(** ** Strings: separators in the city identifier *)

Module TextFacts.
Local Open Scope string_scope.

Lemma includes_cons1 (d : ascii) (s : string) (c : ascii) :
  Js.includes (String d s) (String c EmptyString) = Ascii.eqb d c || Js.includes s (String c EmptyString).
Proof.
  simpl. destruct (ascii_dec c d) as [->|Hne].
  - rewrite Ascii.eqb_refl. destruct s; reflexivity.
  - replace (Ascii.eqb d c) with false; [reflexivity|].
    symmetry. apply Ascii.eqb_neq. congruence.
Qed.

Lemma includes_app1 (a b : string) (c : ascii) :
  Js.includes (a ++ b) (String c EmptyString)
  = Js.includes a (String c EmptyString) || Js.includes b (String c EmptyString).
Proof.
  induction a as [|d a IH]; [reflexivity|].
  change ((String d a ++ b)%string) with (String d (a ++ b)).
  rewrite !includes_cons1, IH, orb_assoc. reflexivity.
Qed.

Lemma includes_substring (c : ascii) (s : string) (n m : nat) :
  Js.includes s (String c EmptyString) = false ->
  Js.includes (substring n m s) (String c EmptyString) = false.
Proof.
  revert n m. induction s as [|d s IH]; intros n m H; destruct n, m; cbn [substring];
    try reflexivity; try exact H.
  - rewrite includes_cons1 in *. apply orb_false_elim in H as [H1 H2].
    rewrite H1, IH; [reflexivity | exact H2].
  - rewrite includes_cons1 in H. apply orb_false_elim in H as [_ H]. apply IH, H.
  - rewrite includes_cons1 in H. apply orb_false_elim in H as [_ H]. apply IH, H.
Qed.

Lemma includes_zeros (c : ascii) (n : Z) :
  Ascii.eqb "0" c = false -> Js.includes (JsNumber.zeros n) (String c EmptyString) = false.
Proof.
  intro H0. unfold JsNumber.zeros. induction (Z.to_nat n) as [|k IH]; [reflexivity|].
  simpl repeat. simpl string_of_list_ascii. rewrite includes_cons1, H0, IH. reflexivity.
Qed.

Lemma includes_digits_aux (c : ascii) (fuel : nat) (z : Z) (acc : string) :
  (forall d, Ascii.eqb (JsNumber.digit_char d) c = false) ->
  Js.includes acc (String c EmptyString) = false ->
  Js.includes (JsNumber.digits_aux fuel z acc) (String c EmptyString) = false.
Proof.
  intro Hd. revert z acc. induction fuel as [|f IH]; intros z acc H; simpl; [exact H|].
  assert (H' : Js.includes (String (JsNumber.digit_char (z mod 10)) acc) (String c EmptyString) = false)
    by (rewrite includes_cons1, Hd, H; reflexivity).
  destruct (z <? 10)%Z; [exact H' | apply IH, H'].
Qed.

Lemma digits_aux_nonempty (fuel : nat) (z : Z) (acc : string) :
  acc <> EmptyString -> JsNumber.digits_aux fuel z acc <> EmptyString.
Proof.
  revert z acc. induction fuel as [|f IH]; intros z acc H; simpl; [exact H|].
  destruct (z <? 10)%Z; [discriminate | apply IH; discriminate].
Qed.

Lemma digits_of_Z_nonempty (z : Z) : JsNumber.digits_of_Z z <> EmptyString.
Proof.
  unfold JsNumber.digits_of_Z. simpl.
  destruct (z <? 10)%Z; [discriminate | apply digits_aux_nonempty; discriminate].
Qed.

Lemma append_nonempty_l (a b : string) : a <> EmptyString -> (a ++ b)%string <> EmptyString.
Proof. destruct a; [contradiction | discriminate]. Qed.

Lemma append_nonempty_r (a b : string) : b <> EmptyString -> (a ++ b)%string <> EmptyString.
Proof. destruct a; [exact id | discriminate]. Qed.

(** The characters [toString] may produce. *)
Section NoSeparator.
Variable c : ascii.
Hypothesis c_not_digit : forall d, Ascii.eqb (JsNumber.digit_char d) c = false.
Hypothesis c_not_other :
  forallb (fun a => negb (Ascii.eqb a c)) ["0"; "."; "e"; "+"; "-"; "N"; "a"; "I"; "n"; "f"; "i"; "t"; "y"]%char
  = true.

Lemma lit_no_c (s : string) :
  forallb (fun a => existsb (Ascii.eqb a) ["0"; "."; "e"; "+"; "-"; "N"; "a"; "I"; "n"; "f"; "i"; "t"; "y"]%char)
    (list_ascii_of_string s) = true ->
  Js.includes s (String c EmptyString) = false.
Proof.
  induction s as [|a s IH]; intro H; [reflexivity|].
  cbn [forallb list_ascii_of_string] in H.
  apply andb_prop in H as [H1 H2]. rewrite includes_cons1, IH by exact H2.
  apply existsb_exists in H1 as [a' [Hin Ea]]. apply Ascii.eqb_eq in Ea. subst a'.
  rewrite forallb_forall in c_not_other. specialize (c_not_other a Hin).
  destruct (Ascii.eqb a c); [discriminate | reflexivity].
Qed.

Ltac lit := apply lit_no_c; reflexivity.

Lemma digits_no_c (z : Z) : Js.includes (JsNumber.digits_of_Z z) (String c EmptyString) = false.
Proof. apply includes_digits_aux; [exact c_not_digit | reflexivity]. Qed.

Lemma zeros_no_c (n : Z) : Js.includes (JsNumber.zeros n) (String c EmptyString) = false.
Proof.
  apply includes_zeros. pose proof (lit_no_c "0" eq_refl) as H.
  rewrite includes_cons1 in H. apply orb_false_elim in H as [H _]. exact H.
Qed.

Lemma format_no_c (s n : Z) : Js.includes (JsNumber.format s n) (String c EmptyString) = false.
Proof.
  unfold JsNumber.format.
  repeat match goal with |- context [if ?b then _ else _] => destruct b end;
    repeat rewrite includes_app1;
    repeat match goal with |- (_ || _)%bool = false => apply orb_false_intro end.
  all: try apply digits_no_c; try apply zeros_no_c;
    try (apply includes_substring, digits_no_c); try lit.
Qed.

Lemma toString_nonneg_no_c (x : float) :
  Js.includes (JsNumber.toString_nonneg x) (String c EmptyString) = false.
Proof.
  unfold JsNumber.toString_nonneg.
  destruct (Prim2SF x) as [| | |b m e]; try lit.
  destruct (JsNumber.shortest _ _ _ _ _) as [s n]. apply format_no_c.
Qed.

Lemma toString_no_c (x : float) :
  Js.includes (JsNumber.toString x) (String c EmptyString) = false.
Proof.
  unfold JsNumber.toString.
  destruct (is_nan x); [lit|]. destruct (PrimFloat.eqb x 0%float); [lit|].
  destruct (PrimFloat.ltb x 0%float); [|apply toString_nonneg_no_c].
  rewrite includes_app1, toString_nonneg_no_c, (lit_no_c "-") by reflexivity. reflexivity.
Qed.

End NoSeparator.

Lemma digit_char_cases (d : Z) :
  In (JsNumber.digit_char d) ["0"; "1"; "2"; "3"; "4"; "5"; "6"; "7"; "8"; "9"]%char.
Proof.
  unfold JsNumber.digit_char.
  destruct (Z.to_nat d) as [|[|[|[|[|[|[|[|[|n]]]]]]]]]; simpl; tauto.
Qed.

Lemma toString_no_colon (x : float) : Js.includes (JsNumber.toString x) ":" = false.
Proof.
  apply toString_no_c; [|reflexivity].
  intro d. destruct (digit_char_cases d) as [<-|[<-|[<-|[<-|[<-|[<-|[<-|[<-|[<-|[<-|[]]]]]]]]]]];
    reflexivity.
Qed.

Lemma toString_no_comma (x : float) : Js.includes (JsNumber.toString x) "," = false.
Proof.
  apply toString_no_c; [|reflexivity].
  intro d. destruct (digit_char_cases d) as [<-|[<-|[<-|[<-|[<-|[<-|[<-|[<-|[<-|[<-|[]]]]]]]]]]];
    reflexivity.
Qed.

Lemma format_nonempty (s n : Z) : JsNumber.format s n <> EmptyString.
Proof.
  unfold JsNumber.format.
  repeat match goal with |- context [if ?b then _ else _] => destruct b end;
    first [ apply append_nonempty_l, digits_of_Z_nonempty
          | apply append_nonempty_r, append_nonempty_l; discriminate
          | discriminate ].
Qed.

Lemma toString_nonempty (x : float) : JsNumber.toString x <> EmptyString.
Proof.
  unfold JsNumber.toString, JsNumber.toString_nonneg.
  destruct (is_nan x); [discriminate|]. destruct (PrimFloat.eqb x 0%float); [discriminate|].
  destruct (PrimFloat.ltb x 0%float); [discriminate|].
  destruct (Prim2SF x) as [| | |b m e]; try discriminate.
  destruct (JsNumber.shortest _ _ _ _ _) as [s n]. apply format_nonempty.
Qed.

(** *** [split] on a separator-free piece *)

Lemma split_no_sep (c : ascii) (s : string) :
  Js.includes s (String c EmptyString) = false -> JsText.split c s = [s].
Proof.
  induction s as [|d s IH]; intro H; [reflexivity|].
  rewrite includes_cons1 in H. apply orb_false_elim in H as [H1 H2].
  simpl. rewrite H1, IH by exact H2. reflexivity.
Qed.

Lemma split_app_sep (c : ascii) (a b : string) :
  Js.includes a (String c EmptyString) = false ->
  JsText.split c (a ++ String c b) = a :: JsText.split c b.
Proof.
  induction a as [|d a IH]; intro H.
  - simpl. rewrite Ascii.eqb_refl. reflexivity.
  - rewrite includes_cons1 in H. apply orb_false_elim in H as [H1 H2].
    simpl. rewrite H1, IH by exact H2. reflexivity.
Qed.

Lemma append_assoc (a b d : string) : (a ++ (b ++ d) = (a ++ b) ++ d)%string.
Proof. induction a as [|x a IH]; simpl; [reflexivity | rewrite IH; reflexivity]. Qed.

Lemma split_id_shape (a b name country : string) :
  Js.includes a ":" = false -> Js.includes b ":" = false ->
  Js.includes a "," = false ->
  Js.includes name ":" = false -> Js.includes country ":" = false ->
  JsText.split ":" (a ++ "," ++ b ++ ":" ++ name ++ ":" ++ country)
    = [(a ++ "," ++ b)%string; name; country] /\
  JsText.split "," (a ++ "," ++ b) = a :: JsText.split "," b.
Proof.
  intros Ha Hb Hac Hn Hc. split.
  - rewrite (append_assoc a), (append_assoc (a ++ ",") b).
    change (":" ++ name ++ ":" ++ country)%string with (String ":" (name ++ ":" ++ country)).
    rewrite split_app_sep.
    + change (":" ++ country)%string with (String ":" country).
      rewrite split_app_sep, split_no_sep by assumption.
      rewrite <- append_assoc. reflexivity.
    + rewrite !includes_app1, Ha, Hb. reflexivity.
  - apply split_app_sep, Hac.
Qed.

End TextFacts.

(** ** The city identifier codec and [searchCities] *)

Module CodecClaims.
Import TextFacts OpenMeteoAPI.
Local Open Scope string_scope.

Lemma truthy_Some (s : string) : s <> EmptyString -> JsText.truthy (Some s) = true.
Proof. destruct s; [contradiction | reflexivity]. Qed.

Lemma parseCityId_shape (a b nm ct : string) :
  Js.includes a ":" = false -> Js.includes b ":" = false ->
  Js.includes a "," = false -> Js.includes b "," = false ->
  Js.includes nm ":" = false -> Js.includes ct ":" = false ->
  parseCityId (a ++ "," ++ b ++ ":" ++ nm ++ ":" ++ ct)
  = if negb (JsText.truthy (Some a)) || negb (JsText.truthy (Some b)) then
      Err (mkError MISSING_COORDINATES_MESSAGE ERROR_CODES.INVALID_COORDINATES)
    else if negb (isValidCoordinate (JsNumber.parseFloat a) (JsNumber.parseFloat b)) then
      Err (mkError INVALID_COORDINATES_MESSAGE ERROR_CODES.INVALID_COORDINATES)
    else Ok (mkParsed (JsNumber.parseFloat a) (JsNumber.parseFloat b) nm ct).
Proof.
  intros Ha Hb Hac Hbc Hn Hc.
  destruct (split_id_shape a b nm ct Ha Hb Hac Hn Hc) as [E1 E2].
  unfold parseCityId. rewrite E1. cbv beta iota zeta.
  rewrite E2, (split_no_sep "," b Hbc). reflexivity.
Qed.

(** C1: an identifier built by [searchCities] from a result with valid
    coordinates, and a name and a country free of [':'], decodes to the
    result's four fields, provided [parseFloat] reads back the coordinates
    from their [toString] (the floating-point string round trip). *)
Theorem codec_roundtrip (r : GeocodingResult) :
  isValidCoordinate (r_latitude r) (r_longitude r) = true ->
  Js.includes (r_name r) ":" = false ->
  Js.includes (r_country r) ":" = false ->
  JsNumber.parseFloat (JsNumber.toString (r_latitude r)) = r_latitude r ->
  JsNumber.parseFloat (JsNumber.toString (r_longitude r)) = r_longitude r ->
  parseCityId (id (toCity r))
  = Ok (mkParsed (r_latitude r) (r_longitude r) (r_name r) (r_country r)).
Proof.
  intros Hv Hn Hc Hlat Hlon. unfold toCity. cbn [id].
  rewrite parseCityId_shape by
    first [apply toString_no_colon | apply toString_no_comma | assumption].
  rewrite !truthy_Some by apply toString_nonempty.
  rewrite Hlat, Hlon, Hv. reflexivity.
Qed.

Lemma codec_roundtrip_witness :
  let r := mkResult "London" 51.5074 (-0.1278)%float "PPLC" "United Kingdom" in
  parseCityId (id (toCity r)) = Ok (mkParsed 51.5074 (-0.1278)%float "London" "United Kingdom").
Proof.
  intro r.
  apply (codec_roundtrip r).
  all: vm_compute; reflexivity.
Defined.

(** C4 (as corrected): an identifier that does not split on [':'] into
    three parts, or whose first part lacks a coordinate string, is
    rejected; the error's code is [INVALID_COORDINATES], the same code as
    for coordinates that fail to parse or are out of range; only the
    message tells the cases apart. *)
Theorem parseCityId_format_error (cityId : string) :
  (List.length (JsText.split ":" cityId) <> 3%nat \/
   exists coords nm ct, JsText.split ":" cityId = [coords; nm; ct] /\
     (JsText.truthy (nth_error (JsText.split "," coords) 0)
      && JsText.truthy (nth_error (JsText.split "," coords) 1))%bool = false) ->
  parseCityId cityId
  = Err (mkError (if Nat.eqb (List.length (JsText.split ":" cityId)) 3
                  then MISSING_COORDINATES_MESSAGE else INVALID_FORMAT_MESSAGE)
                 ERROR_CODES.INVALID_COORDINATES).
Proof.
  intros [Hlen|[coords [nm [ct [E Hm]]]]].
  - unfold parseCityId.
    destruct (JsText.split ":" cityId) as [|x [|y [|z [|w l]]]]; try reflexivity.
    exfalso. apply Hlen. reflexivity.
  - unfold parseCityId. rewrite E. cbv beta iota zeta.
    destruct (JsText.truthy (nth_error (JsText.split "," coords) 0)),
             (JsText.truthy (nth_error (JsText.split "," coords) 1)); try discriminate;
      reflexivity.
Qed.

Lemma parseCityId_format_error_witness :
  parseCityId "invalid-format"
  = Err (mkError INVALID_FORMAT_MESSAGE ERROR_CODES.INVALID_COORDINATES) /\
  parseCityId "12:London:UK"
  = Err (mkError MISSING_COORDINATES_MESSAGE ERROR_CODES.INVALID_COORDINATES).
Proof.
  split.
  - assert (H : List.length (JsText.split ":" "invalid-format") <> 3%nat)
      by (vm_compute; discriminate).
    rewrite (parseCityId_format_error "invalid-format" (or_introl H)).
    vm_compute. reflexivity.
  - assert (H : exists coords nm ct, JsText.split ":" "12:London:UK" = [coords; nm; ct] /\
              (JsText.truthy (nth_error (JsText.split "," coords) 0)
               && JsText.truthy (nth_error (JsText.split "," coords) 1))%bool = false)
      by (exists "12", "London", "UK"; split; vm_compute; reflexivity).
    rewrite (parseCityId_format_error "12:London:UK" (or_intror H)).
    vm_compute. reflexivity.
Defined.

(** C4, as stated, fails: [decode("invalid-format")] and the out-of-range
    [decode("999,999:Atlantis:Ocean")] fail with the same code; there is no
    separate format error code. *)
Lemma parseCityId_format_code_shared :
  exists e1 e2, parseCityId "invalid-format" = Err e1 /\
    parseCityId "999,999:Atlantis:Ocean" = Err e2 /\
    code e1 = code e2 /\ code e1 = ERROR_CODES.INVALID_COORDINATES.
Proof. do 2 eexists. split; [vm_compute; reflexivity|]. split; [vm_compute; reflexivity|]. split; reflexivity. Qed.

(** C5 (as corrected): for an identifier [a,b:name:country] with no [':']
    in its four parts and no [','] in [a] and [b], decoding fails exactly
    when [isValidCoordinate(parseFloat(a), parseFloat(b))] is false (one of
    them NaN, or out of range), always with [INVALID_COORDINATES], and
    otherwise returns the parsed pair with the name and the country.
    [parseFloat] reads the longest numeric prefix, so a coordinate string
    with trailing garbage such as [12abc] is accepted. *)
Theorem parseCityId_coordinates (a b nm ct : string) :
  Js.includes a ":" = false -> Js.includes b ":" = false ->
  Js.includes a "," = false -> Js.includes b "," = false ->
  Js.includes nm ":" = false -> Js.includes ct ":" = false ->
  let cityId := (a ++ "," ++ b ++ ":" ++ nm ++ ":" ++ ct)%string in
  ((exists e, parseCityId cityId = Err e) <->
   isValidCoordinate (JsNumber.parseFloat a) (JsNumber.parseFloat b) = false) /\
  (forall e, parseCityId cityId = Err e -> code e = ERROR_CODES.INVALID_COORDINATES) /\
  (isValidCoordinate (JsNumber.parseFloat a) (JsNumber.parseFloat b) = true ->
   parseCityId cityId = Ok (mkParsed (JsNumber.parseFloat a) (JsNumber.parseFloat b) nm ct)).
Proof.
  intros Ha Hb Hac Hbc Hn Hc cityId. unfold cityId.
  rewrite parseCityId_shape by assumption.
  assert (Hempty : forall s, JsText.truthy (Some s) = false ->
            isValidCoordinate (JsNumber.parseFloat s) (JsNumber.parseFloat b) = false /\
            isValidCoordinate (JsNumber.parseFloat a) (JsNumber.parseFloat s) = false).
  { intros [|x s] H; [|discriminate]. split; unfold isValidCoordinate;
      [reflexivity | rewrite !andb_false_r; reflexivity]. }
  destruct (JsText.truthy (Some a)) eqn:Ta, (JsText.truthy (Some b)) eqn:Tb;
    simpl negb; cbv iota.
  - destruct (isValidCoordinate (JsNumber.parseFloat a) (JsNumber.parseFloat b)) eqn:V;
      simpl negb; cbv iota.
    + split; [split; [intros [e He]; discriminate | discriminate]|].
      split; [intros e He; discriminate | reflexivity].
    + split; [split; [reflexivity | intros _; eexists; reflexivity]|].
      split; [intros e He; injection He as <-; reflexivity | discriminate].
  - rewrite (proj2 (Hempty b Tb)).
    split; [split; [reflexivity | intros _; eexists; reflexivity]|].
    split; [intros e He; injection He as <-; reflexivity | discriminate].
  - rewrite (proj1 (Hempty a Ta)).
    split; [split; [reflexivity | intros _; eexists; reflexivity]|].
    split; [intros e He; injection He as <-; reflexivity | discriminate].
  - rewrite (proj1 (Hempty a Ta)).
    split; [split; [reflexivity | intros _; eexists; reflexivity]|].
    split; [intros e He; injection He as <-; reflexivity | discriminate].
Qed.

Lemma parseCityId_coordinates_witness :
  exists e, parseCityId "999,999:Atlantis:Ocean" = Err e /\
    code e = ERROR_CODES.INVALID_COORDINATES.
Proof.
  destruct (parseCityId_coordinates "999" "999" "Atlantis" "Ocean"
              eq_refl eq_refl eq_refl eq_refl eq_refl eq_refl) as [[_ Hfail] [Hcode _]].
  destruct (Hfail ltac:(vm_compute; reflexivity)) as [e He].
  exists e. split; [exact He | exact (Hcode e He)].
Defined.

(** C5, as stated, fails: the coordinate string [12abc] is not numeric,
    yet [decode("12abc,5:X:Y")] succeeds with latitude 12. *)
Lemma parseCityId_numeric_prefix :
  parseCityId "12abc,5:X:Y" = Ok (mkParsed 12%float 5%float "X" "Y").
Proof. vm_compute. reflexivity. Qed.

(** C8: a query whose trimmed length is below 2 (the empty query
    included) fails with [BAD_USER_INPUT] and finishes without issuing
    the geocoding request. *)
Theorem searchCities_short_query (query : string) :
  (String.length (JsText.trim query) < 2)%nat ->
  searchCities query
  = Done (Err (mkError "Query must be at least 2 characters long" ERROR_CODES.BAD_USER_INPUT)).
Proof.
  intro H. unfold searchCities.
  replace (String.length (JsText.trim query) <? 2)%nat with true
    by (symmetry; apply Nat.ltb_lt, H).
  rewrite orb_true_r. reflexivity.
Qed.

Lemma searchCities_short_query_witness :
  (String.length (JsText.trim " a ") < 2)%nat /\
  searchCities " a "
  = Done (Err (mkError "Query must be at least 2 characters long" ERROR_CODES.BAD_USER_INPUT)).
Proof.
  assert (H : (String.length (JsText.trim " a ") < 2)%nat) by (vm_compute; lia).
  split; [exact H | exact (searchCities_short_query " a " H)].
Defined.

(** C9: for an accepted query, [searchCities] issues one geocoding
    request, and a response without a [results] field yields the empty
    list of cities, not an error. *)
Theorem searchCities_no_results (query : string) (data : GeocodingResponse) :
  (2 <= String.length (JsText.trim query))%nat ->
  results data = None ->
  exists req k, searchCities query = Request req k /\ k (Response data) = Done (Ok []).
Proof.
  intros Hlen Hres. unfold searchCities.
  assert (Hq : String.eqb query "" = false).
  { destruct query; [simpl in Hlen; lia | reflexivity]. }
  replace (String.length (JsText.trim query) <? 2)%nat with false
    by (symmetry; apply Nat.ltb_ge, Hlen).
  rewrite Hq. simpl orb. cbv iota.
  do 2 eexists. split; [reflexivity|]. cbv beta iota. rewrite Hres. reflexivity.
Qed.

Lemma searchCities_no_results_witness :
  exists req k, searchCities "Cape Town" = Request req k /\
    k (Response (mkResponse None 0.5%float)) = Done (Ok []).
Proof.
  exact (searchCities_no_results "Cape Town" (mkResponse None 0.5%float)
           ltac:(vm_compute; lia) eq_refl).
Defined.

End CodecClaims.

(* ================================================================== *)
(** ** Further properties of the code *)

Module RankingExtras.
Import FloatFacts ScoreFacts SortFacts RankingFacts ActivityRankingService ListOrder.
Local Open Scope float_scope.

Lemma scoreActivity_ignores (c : ActivityConfig.t) avg h w p ws p' ws' :
  scoreActivity c avg h w p ws = scoreActivity c avg h w p' ws'.
Proof. reflexivity. Qed.

(** X3: the ranking of a day depends on its precipitation and wind speed only through the two threshold tests: two days with the same temperatures and the same outcomes of [precipitation > RAIN_THRESHOLD] and [windSpeed > WIND_THRESHOLD] rank identically, for every [top]. *)
Theorem rank_thresholds (f g : DailyForecastSummary) (top : Z) :
  maxTemp f = maxTemp g -> minTemp f = minTemp g ->
  (RAIN_THRESHOLD <? precipitation f) = (RAIN_THRESHOLD <? precipitation g) ->
  (WIND_THRESHOLD <? windSpeed f) = (WIND_THRESHOLD <? windSpeed g) ->
  rankActivitiesForDay f top = rankActivitiesForDay g top.
Proof.
  intros Hmax Hmin Hr Hw. unfold rankActivitiesForDay, scoredActivities.
  rewrite Hmax, Hmin, Hr, Hw. reflexivity.
Qed.

Lemma rank_thresholds_witness :
  rankActivitiesForDay (mkSummary "2024-07-01" 22 18 "Clear sky" 1 20) 4
  = rankActivitiesForDay (mkSummary "2024-07-02" 22 18 "Overcast" 0 0) 4.
Proof. apply rank_thresholds; vm_compute; reflexivity. Defined.

(** *** The temperature tag leads every reasoning *)

Definition TEMPERATURE_TAGS : list string :=
  ["ideal temperature"; "too cold"; "too warm"]%string.

Lemma scoreSteps_reasons (c : ActivityConfig.t) (avg : float) (h w : bool) :
  exists tag l, In tag TEMPERATURE_TAGS /\ snd (scoreSteps c avg h w) = tag :: l.
Proof.
  unfold scoreSteps.
  destruct ((ActivityConfig.idealTempMin c <=? avg) && (avg <=? ActivityConfig.idealTempMax c))%bool;
    [| destruct (avg <? ActivityConfig.idealTempMin c)]; cbv zeta;
  repeat match goal with |- context [if ?b then _ else _] => destruct b end;
  cbn [snd app]; eexists _, _; (split; [|reflexivity]); simpl; tauto.
Qed.

Lemma append_empty_r (a : string) : (a ++ "")%string = a.
Proof. induction a as [|x a IH]; simpl; [reflexivity | rewrite IH; reflexivity]. Qed.

Lemma join_cons (sep tag : string) (l : list string) :
  exists rest, Js.join sep (tag :: l) = (tag ++ rest)%string.
Proof.
  destruct l as [|x l].
  - exists EmptyString. simpl. symmetry. apply append_empty_r.
  - eexists. reflexivity.
Qed.

(** X4: every scored activity's reasoning starts with one of the tags "ideal temperature", "too cold", "too warm", so the fallback "standard conditions" is never produced. *)
Theorem reasoning_temperature_tag (f : DailyForecastSummary) (a : Activity.t) :
  In a (scoredActivities f) ->
  exists tag rest, In tag TEMPERATURE_TAGS /\ Activity.reasoning a = (tag ++ rest)%string /\
    Activity.reasoning a <> "standard conditions"%string.
Proof.
  intro Ha. apply in_scoredActivities in Ha as [c [_ ->]].
  unfold scoreActivity.
  destruct (scoreSteps_reasons c ((maxTemp f + minTemp f) / 2) (RAIN_THRESHOLD <? precipitation f)
              (WIND_THRESHOLD <? windSpeed f)) as [tag [l [Htag E]]].
  destruct (scoreSteps _ _ _ _) as [score reasons]. simpl in E. subst reasons. cbn [Activity.reasoning].
  destruct (join_cons ", "%string tag l) as [rest Hj]. rewrite Hj.
  assert (Hne : tag <> EmptyString) by (simpl in Htag; intuition (subst; discriminate)).
  destruct tag as [|ch tag']; [contradiction|]. simpl Js.string_or.
  exists (String ch tag'), rest. split; [exact Htag|]. split; [reflexivity|].
  simpl in Htag. destruct Htag as [E|[E|[E|[]]]]; injection E as <- <-; discriminate.
Qed.

Lemma reasoning_temperature_tag_witness :
  exists a, In a (scoredActivities (mkSummary "2024-01-01" 20 15 "Overcast" 1 15)) /\
    exists tag rest, In tag TEMPERATURE_TAGS /\ Activity.reasoning a = (tag ++ rest)%string /\
      Activity.reasoning a <> "standard conditions"%string.
Proof.
  eexists. split; [vm_compute; left; reflexivity|].
  apply (reasoning_temperature_tag (mkSummary "2024-01-01" 20 15 "Overcast" 1 15)).
  vm_compute. left. reflexivity.
Defined.

(** *** The ranking is a permutation; its head has the greatest score *)

Section Perm.
Context {A : Type} (cmp : A -> A -> float).

Lemma insert_perm (x : A) (l : list A) : Permutation (Js.insert cmp x l) (x :: l).
Proof.
  induction l as [|y l IH]; simpl; [reflexivity|].
  destruct (0 <? cmp x y); [|reflexivity].
  rewrite IH. apply perm_swap.
Qed.

Lemma sort_perm (l : list A) : Permutation (Js.sort cmp l) l.
Proof.
  induction l as [|x l IH]; simpl; [reflexivity|].
  rewrite insert_perm. apply perm_skip, IH.
Qed.

End Perm.

Lemma rank_all (f : DailyForecastSummary) (top : Z) :
  (4 <= top)%Z -> rankActivitiesForDay f top = Js.sort byScoreDesc (scoredActivities f).
Proof.
  intro Htop. unfold rankActivitiesForDay, Js.slice0.
  rewrite length_sort, length_scoredActivities.
  replace (top <? 0)%Z with false by (symmetry; apply Z.ltb_ge; lia).
  rewrite Z.min_r by lia. apply firstn_all2. rewrite length_sort, length_scoredActivities.
  reflexivity.
Qed.

(** X5: for [top >= 4], the ranking is a permutation of the four scored activities, one per entry of [ACTIVITY_CONFIGS]. *)
Theorem rank_permutation (f : DailyForecastSummary) (top : Z) :
  (4 <= top)%Z ->
  Permutation (rankActivitiesForDay f top) (scoredActivities f) /\
  Permutation (map Activity.name (rankActivitiesForDay f top))
    (map ActivityConfig.name ACTIVITY_CONFIGS).
Proof.
  intro Htop. rewrite rank_all by exact Htop.
  split; [apply sort_perm|].
  rewrite <- (names_scoredActivities f). apply Permutation_map, sort_perm.
Qed.

Lemma rank_permutation_witness :
  (4 <= 10)%Z /\
  Permutation (map Activity.name (rankActivitiesForDay (mkSummary "2024-01-01" 18 15 "Heavy rain" 15 10) 10))
    ["skiing"; "surfing"; "indoor_sightseeing"; "outdoor_sightseeing"]%string.
Proof.
  split; [lia|].
  exact (proj2 (rank_permutation (mkSummary "2024-01-01" 18 15 "Heavy rain" 15 10) 10 ltac:(lia))).
Defined.

Lemma before_nodup {A} (a b : A) (l : list A) :
  NoDup l -> before a b l -> before b a l -> False.
Proof.
  induction l as [|c l IH]; intros Hnd H1 H2.
  - apply before_In in H1 as [[] _].
  - inversion Hnd as [|? ? Hc Hnd']; subst.
    apply before_cons in H1 as [[-> Hb]|H1]; apply before_cons in H2 as [[-> Ha]|H2].
    + exact (Hc Ha).
    + apply Hc, (before_In _ _ _ H2).
    + apply Hc, (before_In _ _ _ H1).
    + exact (IH Hnd' H1 H2).
Qed.

Lemma nodup_scoredActivities (f : DailyForecastSummary) : NoDup (scoredActivities f).
Proof.
  apply (NoDup_map_inv Activity.name). rewrite names_scoredActivities. simpl.
  repeat constructor; simpl; intuition discriminate.
Qed.

(** X6: when the average temperature is not NaN, [rankActivitiesForDay f 1] is a single scored activity whose score no other activity exceeds, and which scores strictly higher than every activity listed before it in [ACTIVITY_CONFIGS]. *)
Theorem rank_top_one (f : DailyForecastSummary) :
  is_nan ((maxTemp f + minTemp f) / 2) = false ->
  exists a, rankActivitiesForDay f 1 = [a] /\ In a (scoredActivities f) /\
    (forall b, In b (scoredActivities f) ->
       (Activity.suitabilityScore a <? Activity.suitabilityScore b) = false) /\
    (forall b, before b a (scoredActivities f) ->
       (Activity.suitabilityScore b <? Activity.suitabilityScore a) = true).
Proof.
  intro Havg. apply is_nan_false in Havg.
  set (l := scoredActivities f).
  assert (Hint : Forall int_score l).
  { apply Forall_forall. intros x Hx. apply (scoredActivities_int f x Havg Hx). }
  assert (Hlen : List.length (Js.sort byScoreDesc l) = 4%nat)
    by (rewrite length_sort; apply length_scoredActivities).
  destruct (Js.sort byScoreDesc l) as [|a rest] eqn:Es; [discriminate|].
  assert (Ha : In a l) by (apply (In_sort byScoreDesc); rewrite Es; left; reflexivity).
  assert (Hbefore : forall b, In b rest -> (0 <? byScoreDesc a b) = false).
  { intros b Hb. apply (sort_before_keeps byScoreDesc int_score int_asym int_trans a b l Hint).
    rewrite Es. apply before_cons. left. split; [reflexivity | exact Hb]. }
  rewrite Forall_forall in Hint.
  exists a. split.
  - unfold rankActivitiesForDay, Js.slice0. fold l. rewrite Es, Hlen. reflexivity.
  - split; [exact Ha|]. split.
    + intros b Hb.
      destruct (Hint a Ha) as [n [Hn En]], (Hint b Hb) as [m [Hm Em]].
      rewrite En, Em, (proj1 (proj2 (int_score_facts n m Hn Hm))).
      assert (Hb' : In b (a :: rest)) by (rewrite <- Es; apply In_sort, Hb).
      destruct Hb' as [<-|Hb'].
      * rewrite En in Em. apply Z.ltb_ge.
        pose proof (proj2 (proj2 (int_score_facts n m Hn Hm))) as Eq.
        rewrite <- Em, (proj2 (proj2 (int_score_facts n n Hn Hn))), Z.eqb_refl in Eq.
        symmetry in Eq. apply Z.eqb_eq in Eq. lia.
      * specialize (Hbefore b Hb'). unfold byScoreDesc in Hbefore. rewrite En, Em in Hbefore.
        rewrite (proj1 (int_score_facts n m Hn Hm)) in Hbefore. exact Hbefore.
    + intros b Hba.
      assert (Hb : In b l) by exact (proj1 (before_In _ _ _ Hba)).
      destruct (Hint a Ha) as [n [Hn En]], (Hint b Hb) as [m [Hm Em]].
      rewrite En, Em, (proj1 (proj2 (int_score_facts m n Hm Hn))).
      assert (Hb' : In b (a :: rest)) by (rewrite <- Es; apply In_sort, Hb).
      destruct Hb' as [<-|Hb'].
      * exfalso. exact (before_nodup a a l (nodup_scoredActivities f) Hba Hba).
      * destruct (0 <? byScoreDesc b a) eqn:Eba.
        -- unfold byScoreDesc in Eba. rewrite En, Em, (proj1 (int_score_facts m n Hm Hn)) in Eba.
           exact Eba.
        -- exfalso. apply (before_nodup b a l (nodup_scoredActivities f) Hba).
           apply (sort_before byScoreDesc a b l); [|exact Eba].
           rewrite Es. apply before_cons. left. split; [reflexivity | exact Hb'].
Qed.

Lemma rank_top_one_witness :
  let f := mkSummary "2024-06-01" 22 18 "Clear sky" 0 5 in
  exists a, rankActivitiesForDay f 1 = [a] /\ In a (scoredActivities f).
Proof.
  intro f.
  destruct (rank_top_one f ltac:(vm_compute; reflexivity)) as [a [H1 [H2 _]]].
  exists a. split; assumption.
Defined.

End RankingExtras.


Module ApiExtras.
Import TextFacts OpenMeteoAPI ScoreFacts SortFacts RankingFacts.
Local Open Scope string_scope.

(** *** Trimming is idempotent *)

Lemma trim_start_shape (s : string) :
  JsText.trim_start s = EmptyString \/
  exists c r, JsText.trim_start s = String c r /\ JsText.is_ws c = false.
Proof.
  induction s as [|c s IH]; simpl; [left; reflexivity|].
  destruct (JsText.is_ws c) eqn:E; [exact IH|]. right. exists c, s. split; [reflexivity | exact E].
Qed.

Lemma trim_end_cons (c : ascii) (s : string) :
  JsText.trim_end (String c s)
  = match JsText.trim_end s with
    | EmptyString => if JsText.is_ws c then EmptyString else String c EmptyString
    | String _ _ => String c (JsText.trim_end s)
    end.
Proof. reflexivity. Qed.

Lemma trim_end_idem (s : string) : JsText.trim_end (JsText.trim_end s) = JsText.trim_end s.
Proof.
  induction s as [|c s IH]; [reflexivity|]. rewrite (trim_end_cons c s).
  destruct (JsText.trim_end s) as [|d t] eqn:E.
  - destruct (JsText.is_ws c) eqn:W; [reflexivity|]. simpl. rewrite W. reflexivity.
  - rewrite trim_end_cons, IH. reflexivity.
Qed.

Lemma trim_start_trim_end (c : ascii) (r : string) :
  JsText.is_ws c = false ->
  JsText.trim_start (JsText.trim_end (String c r)) = JsText.trim_end (String c r).
Proof.
  intro W. cbn [JsText.trim_end]. destruct (JsText.trim_end r); rewrite ?W; simpl; rewrite ?W; reflexivity.
Qed.

Lemma trim_idem (s : string) : JsText.trim (JsText.trim s) = JsText.trim s.
Proof.
  unfold JsText.trim.
  destruct (trim_start_shape s) as [E|[c [r [E W]]]]; rewrite E.
  - reflexivity.
  - rewrite trim_start_trim_end by exact W. apply trim_end_idem.
Qed.

Lemma short_check (q : string) :
  (String.eqb q "" || (String.length (JsText.trim q) <? 2)%nat)%bool
  = (String.length (JsText.trim q) <? 2)%nat.
Proof. destruct q; reflexivity. Qed.

(** X7: [searchCities] behaves the same on a query and on its trimmed form: trimming is idempotent and only the trimmed query is checked and sent. *)
Theorem searchCities_trim (query : string) :
  searchCities (JsText.trim query) = searchCities query.
Proof.
  unfold searchCities. rewrite !short_check, !trim_idem. reflexivity.
Qed.

(** *** The cities of a response *)


Lemma searchCities_request (query : string) :
  (2 <= String.length (JsText.trim query))%nat ->
  searchCities query =
  Request (mkRequest (GEOCODING_BASE_URL ++ "/search") (JsText.trim query) MAX_RESULTS
             "en" "json" REQUEST_TIMEOUT_MS)
    (fun o =>
       match o with
       | Response data =>
           match results data with
           | None => Done (Ok [])
           | Some rs =>
               Done (Ok (map toCity
                   (filter (fun r => existsb (String.eqb (r_feature_code r)) PLACE_CODES) rs)))
           end
       | AxiosError c st stText msg =>
           if match c with Some c' => String.eqb c' "ECONNABORTED" | None => false end then
             Done (Err (mkError "Request timeout while searching cities" ERROR_CODES.TIMEOUT))
           else if match st with Some n => (n =? 429)%Z | None => false end then
             Done (Err (mkError "Rate limit exceeded. Please try again later."
                          ERROR_CODES.RATE_LIMIT_EXCEEDED))
           else
             Done (Err (mkError ("Failed to search cities: "
                                 ++ match stText with Some t => Js.string_or t msg | None => msg end)
                          ERROR_CODES.UNKNOWN_ERROR))
       | OtherError =>
           Done (Err (mkError "Unknown error occurred while searching cities"
                        ERROR_CODES.UNKNOWN_ERROR))
       end).
Proof.
  intro H. unfold searchCities. rewrite short_check.
  replace (String.length (JsText.trim query) <? 2)%nat with false
    by (symmetry; apply Nat.ltb_ge, H).
  reflexivity.
Qed.

(** *** How the requests fail *)

Lemma getWeatherData_request (latitude longitude : float) :
  isValidCoordinate latitude longitude = true ->
  getWeatherData latitude longitude =
  Call (mkForecastRequest (WEATHER_BASE_URL ++ "/forecast") latitude longitude
          (Js.join "," ["temperature_2m"; "relative_humidity_2m"; "precipitation";
                        "weather_code"; "wind_speed_10m"])
          (Js.join "," ["weather_code"; "temperature_2m_max"; "temperature_2m_min";
                        "precipitation_sum"; "wind_speed_10m_max"])
          "auto" 7 REQUEST_TIMEOUT_MS)
    (fun o =>
       Ret match o with
           | WResponse data =>
               Ok (mkWeather (temperature_2m (current data))
                     (getWeatherCondition (Some (cur_weather_code (current data))))
                     (relative_humidity_2m (current data)) (wind_speed_10m (current data))
                     (cur_precipitation (current data))
                     (Js.mapi (forecast_entry (daily data)) (time (daily data))))
           | WAxiosError c st stText msg =>
               if match c with Some c' => String.eqb c' "ECONNABORTED" | None => false end then
                 Err (mkError "Request timeout while fetching weather data" ERROR_CODES.TIMEOUT)
               else if match st with Some n => (n =? 429)%Z | None => false end then
                 Err (mkError "Rate limit exceeded. Please try again later."
                        ERROR_CODES.RATE_LIMIT_EXCEEDED)
               else
                 Err (mkError ("Failed to fetch weather data: "
                               ++ match stText with Some t => Js.string_or t msg | None => msg end)
                        ERROR_CODES.UNKNOWN_ERROR)
           | WOtherError =>
               Err (mkError "Unknown error occurred while fetching weather data"
                      ERROR_CODES.UNKNOWN_ERROR)
           end).
Proof. intro H. unfold getWeatherData. rewrite H. reflexivity. Qed.

Definition API_ERROR_CODES : list string :=
  [ERROR_CODES.TIMEOUT; ERROR_CODES.RATE_LIMIT_EXCEEDED; ERROR_CODES.UNKNOWN_ERROR].

(** The last branch of an axios error: neither a timeout nor status 429. *)
Ltac fallback_tac c st stText :=
  destruct c as [c'|];
  [destruct (String.eqb c' "ECONNABORTED") eqn:Ec;
     [apply String.eqb_eq in Ec; subst c'; contradiction|] |];
  (destruct st as [n|];
   [destruct (n =? 429)%Z eqn:En; [apply Z.eqb_eq in En; subst n; contradiction|] |]);
  destruct stText as [[|ch t]|]; reflexivity.

(** X9: once a request is sent, [searchCities] and [getWeatherData] fail only on an error outcome, with code TIMEOUT, RATE_LIMIT_EXCEEDED or UNKNOWN_ERROR; an ECONNABORTED error gives TIMEOUT whatever its status; any other axios error whose status is not 429 gives UNKNOWN_ERROR with the response's status text, or the error message when the status text is absent or empty. *)
Theorem api_request_errors (query : string) (latitude longitude : float) :
  (2 <= String.length (JsText.trim query))%nat ->
  isValidCoordinate latitude longitude = true ->
  (exists req k, searchCities query = Request req k /\
     (forall o e, k o = Done (Err e) ->
        In (code e) API_ERROR_CODES /\ forall data, o <> Response data) /\
     (forall st stText msg,
        k (AxiosError (Some "ECONNABORTED") st stText msg)
        = Done (Err (mkError "Request timeout while searching cities" ERROR_CODES.TIMEOUT))) /\
     (forall c st stText msg, c <> Some "ECONNABORTED" -> st <> Some 429%Z ->
        k (AxiosError c st stText msg)
        = Done (Err (mkError ("Failed to search cities: " ++ match stText with
                                               | Some (String _ _ as t) => t
                                               | _ => msg
                                               end) ERROR_CODES.UNKNOWN_ERROR)))) /\
  (exists req k, getWeatherData latitude longitude = Call req k /\
     (forall o e, k o = Ret (Err e) ->
        In (code e) API_ERROR_CODES /\ forall data, o <> WResponse data) /\
     (forall st stText msg,
        k (WAxiosError (Some "ECONNABORTED") st stText msg)
        = Ret (Err (mkError "Request timeout while fetching weather data" ERROR_CODES.TIMEOUT))) /\
     (forall c st stText msg, c <> Some "ECONNABORTED" -> st <> Some 429%Z ->
        k (WAxiosError c st stText msg)
        = Ret (Err (mkError ("Failed to fetch weather data: " ++ match stText with
                                               | Some (String _ _ as t) => t
                                               | _ => msg
                                               end) ERROR_CODES.UNKNOWN_ERROR)))).
Proof.
  intros Hq Hv. split.
  - rewrite searchCities_request by exact Hq. do 2 eexists. split; [reflexivity|].
    split; [|split].
    + intros o e H. destruct o as [data|c st stText msg|].
      * destruct (results data); discriminate.
      * split; [|intros ? ?; discriminate].
        destruct (match c with Some c' => String.eqb c' "ECONNABORTED" | None => false end);
          [|destruct (match st with Some n => (n =? 429)%Z | None => false end)];
          injection H as <-; simpl; tauto.
      * split; [|intros ? ?; discriminate]. injection H as <-. simpl. tauto.
    + intros st stText msg. reflexivity.
    + intros c st stText msg Hc Hst. cbv beta iota. fallback_tac c st stText.
  - rewrite getWeatherData_request by exact Hv. do 2 eexists. split; [reflexivity|].
    split; [|split].
    + intros o e H. destruct o as [data|c st stText msg|].
      * discriminate.
      * split; [|intros ? ?; discriminate].
        destruct (match c with Some c' => String.eqb c' "ECONNABORTED" | None => false end);
          [|destruct (match st with Some n => (n =? 429)%Z | None => false end)];
          injection H as <-; simpl; tauto.
      * split; [|intros ? ?; discriminate]. injection H as <-. simpl. tauto.
    + intros st stText msg. reflexivity.
    + intros c st stText msg Hc Hst. cbv beta iota. fallback_tac c st stText.
Qed.

Lemma api_request_errors_witness :
  (exists req k, searchCities "Paris" = Request req k /\
     (forall o e, k o = Done (Err e) ->
        In (code e) API_ERROR_CODES /\ forall data, o <> Response data) /\
     (forall st stText msg,
        k (AxiosError (Some "ECONNABORTED") st stText msg)
        = Done (Err (mkError "Request timeout while searching cities" ERROR_CODES.TIMEOUT))) /\
     (forall c st stText msg, c <> Some "ECONNABORTED" -> st <> Some 429%Z ->
        k (AxiosError c st stText msg)
        = Done (Err (mkError ("Failed to search cities: " ++ match stText with
                                               | Some (String _ _ as t) => t
                                               | _ => msg
                                               end) ERROR_CODES.UNKNOWN_ERROR)))) /\
  (exists req k, getWeatherData 48.5 2.25 = Call req k /\
     (forall o e, k o = Ret (Err e) ->
        In (code e) API_ERROR_CODES /\ forall data, o <> WResponse data) /\
     (forall st stText msg,
        k (WAxiosError (Some "ECONNABORTED") st stText msg)
        = Ret (Err (mkError "Request timeout while fetching weather data" ERROR_CODES.TIMEOUT))) /\
     (forall c st stText msg, c <> Some "ECONNABORTED" -> st <> Some 429%Z ->
        k (WAxiosError c st stText msg)
        = Ret (Err (mkError ("Failed to fetch weather data: " ++ match stText with
                                               | Some (String _ _ as t) => t
                                               | _ => msg
                                               end) ERROR_CODES.UNKNOWN_ERROR)))).
Proof.
  exact (api_request_errors "Paris" 48.5 2.25 ltac:(vm_compute; lia) ltac:(vm_compute; reflexivity)).
Defined.


(** *** The forecast days *)

Lemma nth_error_mapi_from {A B} (f : nat -> A -> B) (l : list A) (i j : nat) :
  nth_error (Js.mapi_from f i l) j = option_map (f (i + j)%nat) (nth_error l j).
Proof.
  revert i j. induction l as [|x l IH]; intros i j; [destruct j; reflexivity|].
  destruct j as [|j]; simpl.
  - rewrite Nat.add_0_r. reflexivity.
  - rewrite IH. rewrite Nat.add_succ_r. reflexivity.
Qed.

Lemma length_mapi_from {A B} (f : nat -> A -> B) (l : list A) (i : nat) :
  List.length (Js.mapi_from f i l) = List.length l.
Proof. revert i. induction l as [|x l IH]; intro i; simpl; [reflexivity | rewrite IH; reflexivity]. Qed.

Lemma rank_one (f : DailyForecastSummary) :
  exists a, ActivityRankingService.rankActivitiesForDay f 1 = [a] /\
    In a (ActivityRankingService.scoredActivities f).
Proof.
  pose proof (length_sort ActivityRankingService.byScoreDesc (ActivityRankingService.scoredActivities f)) as H.
  rewrite length_scoredActivities in H.
  assert (Hin : forall a, In a (Js.sort ActivityRankingService.byScoreDesc
                                  (ActivityRankingService.scoredActivities f)) ->
                          In a (ActivityRankingService.scoredActivities f))
    by (intros a; apply In_sort).
  unfold ActivityRankingService.rankActivitiesForDay, Js.slice0. rewrite H.
  destruct (Js.sort _ _) as [|a rest]; [discriminate|].
  exists a. split; [reflexivity | apply Hin; left; reflexivity].
Qed.

Lemma Prim2SF_nan : Prim2SF nan = S754_nan.
Proof. reflexivity. Qed.

Lemma avg_nan_l (y : float) : Prim2SF ((nan + y) / 2)%float = S754_nan.
Proof. rewrite div_spec, add_spec, Prim2SF_nan. reflexivity. Qed.

Lemma avg_nan_r (x : float) : Prim2SF ((x + nan) / 2)%float = S754_nan.
Proof.
  rewrite div_spec, add_spec, Prim2SF_nan.
  destruct (Prim2SF x) as [[]|[]| |[] m e]; reflexivity.
Qed.

(** X11: for valid coordinates [getWeatherData] requests a seven-day forecast in the "auto" time zone at those coordinates; on a response it returns one forecast day per entry of [daily.time], day i carrying the i-th date, temperatures and condition, and exactly one recommended activity. *)
Theorem getWeatherData_forecast (latitude longitude : float) :
  isValidCoordinate latitude longitude = true ->
  exists req k, getWeatherData latitude longitude = Call req k /\
    f_latitude req = latitude /\ f_longitude req = longitude /\
    f_forecast_days req = 7%Z /\ f_timezone req = "auto" /\
    forall data, exists w, k (WResponse data) = Ret (Ok w) /\
      w_conditions w = getWeatherCondition (Some (cur_weather_code (current data))) /\
      List.length (w_forecast w) = List.length (time (daily data)) /\
      forall i d, nth_error (w_forecast w) i = Some d ->
        nth_error (time (daily data)) i = Some (fc_date d) /\
        fc_maxTemp d = nth_error (temperature_2m_max (daily data)) i /\
        fc_minTemp d = nth_error (temperature_2m_min (daily data)) i /\
        fc_conditions d = getWeatherCondition (nth_error (weather_code (daily data)) i) /\
        exists a, fc_activities d = [a] /\
          In (Activity.name a) (map ActivityConfig.name ACTIVITY_CONFIGS).
Proof.
  intro Hv. rewrite getWeatherData_request by exact Hv.
  do 2 eexists. split; [reflexivity|]. do 4 (split; [reflexivity|]).
  intro data. eexists. split; [reflexivity|]. split; [reflexivity|].
  split; [apply length_mapi_from|].
  intros i d Hd. cbn [w_forecast] in Hd. unfold Js.mapi in Hd. rewrite nth_error_mapi_from in Hd.
  destruct (nth_error (time (daily data)) i) as [date|] eqn:Et; [|discriminate].
  injection Hd as <-. cbn [Nat.add]. unfold forecast_entry. cbn [fc_date fc_maxTemp fc_minTemp fc_conditions fc_activities].
  split; [reflexivity|]. do 3 (split; [reflexivity|]).
  edestruct rank_one as [a [-> Ha]]. exists a. split; [reflexivity|].
  erewrite <- names_scoredActivities. apply in_map, Ha.
Qed.

Lemma getWeatherData_forecast_witness :
  exists req k, getWeatherData 48.5 2.25 = Call req k /\
    f_latitude req = 48.5%float /\ f_longitude req = 2.25%float /\
    f_forecast_days req = 7%Z /\ f_timezone req = "auto" /\
    forall data, exists w, k (WResponse data) = Ret (Ok w) /\
      w_conditions w = getWeatherCondition (Some (cur_weather_code (current data))) /\
      List.length (w_forecast w) = List.length (time (daily data)) /\
      forall i d, nth_error (w_forecast w) i = Some d ->
        nth_error (time (daily data)) i = Some (fc_date d) /\
        fc_maxTemp d = nth_error (temperature_2m_max (daily data)) i /\
        fc_minTemp d = nth_error (temperature_2m_min (daily data)) i /\
        fc_conditions d = getWeatherCondition (nth_error (weather_code (daily data)) i) /\
        exists a, fc_activities d = [a] /\
          In (Activity.name a) (map ActivityConfig.name ACTIVITY_CONFIGS).
Proof. exact (getWeatherData_forecast 48.5 2.25 ltac:(vm_compute; reflexivity)). Defined.


(** X12: in a forecast day whose maximum or minimum temperature is missing from the response ([undefined]), the recommended activity's score is NaN; when both are present with a non-NaN mean, it is an integer from 0 to 100. *)
Theorem forecast_entry_scores (daily : DailyWeather) (index : nat) (date : string) (a : Activity.t) :
  In a (fc_activities (forecast_entry daily index date)) ->
  ((Js.at_index (temperature_2m_max daily) index = None \/
    Js.at_index (temperature_2m_min daily) index = None) ->
   is_nan (Activity.suitabilityScore a) = true) /\
  (forall x y, Js.at_index (temperature_2m_max daily) index = Some x ->
   Js.at_index (temperature_2m_min daily) index = Some y ->
   Prim2SF ((x + y) / 2)%float <> S754_nan -> int_score a).
Proof.
  intro Ha. unfold forecast_entry in Ha. cbn [fc_activities] in Ha.
  apply in_rank in Ha. split.
  - intro Hn. refine (scoredActivities_nan _ a _ Ha).
    unfold forecastDay_summary; cbn [maxTemp minTemp].
    destruct Hn as [-> | ->]; [apply avg_nan_l | apply avg_nan_r].
  - intros x y Hx Hy Havg. refine (scoredActivities_int _ a _ Ha).
    unfold forecastDay_summary; cbn [maxTemp minTemp]. rewrite Hx, Hy. exact Havg.
Qed.

Lemma forecast_entry_scores_witness :
  let daily := mkDaily ["2024-06-01"; "2024-06-02"] [0; 3]%float [25]%float [15; 10]%float
                       [0; 0]%float [5; 5]%float in
  exists a, In a (fc_activities (forecast_entry daily 1 "2024-06-02")) /\
    is_nan (Activity.suitabilityScore a) = true.
Proof.
  intro daily.
  destruct (rank_one (forecastDay_summary "2024-06-02"
              (Js.at_index (temperature_2m_max daily) 1) (Js.at_index (temperature_2m_min daily) 1)
              (getWeatherCondition (Js.at_index (weather_code daily) 1))
              (Js.at_index (precipitation_sum daily) 1) (Js.at_index (wind_speed_10m_max daily) 1)))
    as [a [E _]].
  assert (Ha : In a (fc_activities (forecast_entry daily 1 "2024-06-02")))
    by (unfold forecast_entry; cbn [fc_activities]; rewrite E; left; reflexivity).
  exists a. split; [exact Ha|].
  apply (proj1 (forecast_entry_scores daily 1 "2024-06-02" a Ha)). left. reflexivity.
Defined.


End ApiExtras.

Module ResolverFacts.
Import TextFacts OpenMeteoAPI resolvers Reach ApiExtras.
Local Open Scope string_scope.

Lemma toCity_parse (r : GeocodingResult) :
  isValidCoordinate (r_latitude r) (r_longitude r) = true ->
  Js.includes (r_name r) ":" = false ->
  Js.includes (r_country r) ":" = false ->
  JsNumber.parseFloat (JsNumber.toString (r_latitude r)) = r_latitude r ->
  JsNumber.parseFloat (JsNumber.toString (r_longitude r)) = r_longitude r ->
  parseCityId (id (toCity r))
  = Ok (mkParsed (r_latitude r) (r_longitude r) (r_name r) (r_country r)).
Proof.
  intros Hv Hn Hc Hlat Hlon. unfold toCity. cbn [id].
  rewrite CodecClaims.parseCityId_shape by
    first [apply toString_no_colon | apply toString_no_comma | assumption].
  rewrite !CodecClaims.truthy_Some by apply toString_nonempty.
  rewrite Hlat, Hlon, Hv. reflexivity.
Qed.

Lemma parseCityId_err_code (cityId : string) (e : OpenMeteoAPIError) :
  parseCityId cityId = Err e -> code e = ERROR_CODES.INVALID_COORDINATES.
Proof.
  unfold parseCityId. intro H.
  destruct (JsText.split ":" cityId) as [|coords [|nm [|ct [|x l]]]];
    try (injection H as <-; reflexivity).
  destruct (negb _ || negb _); [injection H as <-; reflexivity|].
  destruct (negb _); [injection H as <-; reflexivity | discriminate].
Qed.

Lemma parseCityId_ok (cityId : string) (p : ParsedCity) :
  parseCityId cityId = Ok p -> isValidCoordinate (p_latitude p) (p_longitude p) = true.
Proof.
  unfold parseCityId. intro H.
  destruct (JsText.split ":" cityId) as [|coords [|nm [|ct [|x l]]]]; try discriminate.
  destruct (negb _ || negb _); [discriminate|].
  destruct (isValidCoordinate _ _) eqn:E; [|discriminate].
  injection H as <-. exact E.
Qed.

Lemma reaches_io_map {Req Resp A B} (f : A -> B) (m : io Req Resp A) (r : B) :
  reaches (io_map f m) r -> exists x, reaches m x /\ r = f x.
Proof.
  induction m as [x|req k IH]; intro H; simpl in H.
  - inversion H; subst. exists x. split; [constructor | reflexivity].
  - inversion H as [|req' k' o r' Hk]; subst.
    destruct (IH o Hk) as [x [Hx ->]]. exists x. split; [econstructor; exact Hx | reflexivity].
Qed.

Lemma reaches_ret_inv {Req Resp R} (x y : R) :
  @reaches Req Resp R (Ret x) y -> x = y.
Proof. intro H. inversion H. reflexivity. Qed.

Lemma getWeatherData_reaches_err (latitude longitude : float) (e : OpenMeteoAPIError) :
  reaches (getWeatherData latitude longitude) (Err e) ->
  In (code e) (ERROR_CODES.INVALID_COORDINATES :: API_ERROR_CODES).
Proof.
  unfold getWeatherData. intro H.
  destruct (negb (isValidCoordinate latitude longitude)).
  - inversion H; subst. left. reflexivity.
  - inversion H as [|req k o r Hk]; subst. apply reaches_ret_inv in Hk.
    destruct o as [data|c st stText msg|]; [discriminate| |injection Hk as <-; simpl; tauto].
    destruct (match c with Some c' => String.eqb c' "ECONNABORTED" | None => false end);
      [|destruct (match st with Some n => (n =? 429)%Z | None => false end)];
      injection Hk as <-; simpl; tauto.
Qed.

(** X13: the [getCityWeather] resolver rejects an id that [parseCityId] rejects without any request, with code INVALID_COORDINATES and service "OpenMeteo Weather API". *)
Theorem getCityWeather_invalid_id (cityId : string) (e : OpenMeteoAPIError) :
  parseCityId cityId = Err e ->
  Query_getCityWeather cityId
  = Ret (GErr (mkGraphQLError (message e) ERROR_CODES.INVALID_COORDINATES
                 (Some "OpenMeteo Weather API"))).
Proof.
  intro H. unfold Query_getCityWeather, getWeatherByCityId. rewrite H. simpl.
  rewrite (parseCityId_err_code cityId e H). reflexivity.
Qed.

Lemma getCityWeather_invalid_id_witness :
  Query_getCityWeather "999,999:Atlantis:Ocean"
  = Ret (GErr (mkGraphQLError INVALID_COORDINATES_MESSAGE ERROR_CODES.INVALID_COORDINATES
                 (Some "OpenMeteo Weather API"))).
Proof.
  exact (getCityWeather_invalid_id "999,999:Atlantis:Ocean"
           (mkError INVALID_COORDINATES_MESSAGE ERROR_CODES.INVALID_COORDINATES)
           ltac:(vm_compute; reflexivity)).
Defined.

(** X14: an id produced by [searchCities] (valid coordinates, name and country without ':', coordinates read back by [parseFloat]) makes [getCityWeather] send the very request [getWeatherData] sends for the result's coordinates; whenever that call yields a weather (it does on every response), the resolver returns the city that [searchCities] built together with that same weather. *)
Theorem getCityWeather_roundtrip (r : GeocodingResult) :
  isValidCoordinate (r_latitude r) (r_longitude r) = true ->
  Js.includes (r_name r) ":" = false ->
  Js.includes (r_country r) ":" = false ->
  JsNumber.parseFloat (JsNumber.toString (r_latitude r)) = r_latitude r ->
  JsNumber.parseFloat (JsNumber.toString (r_longitude r)) = r_longitude r ->
  exists req k kw, getWeatherData (r_latitude r) (r_longitude r) = Call req kw /\
    Query_getCityWeather (id (toCity r)) = Call req k /\
    f_latitude req = r_latitude r /\ f_longitude req = r_longitude r /\
    (forall data, exists w, kw (WResponse data) = Ret (Ok w)) /\
    forall o w, kw o = Ret (Ok w) -> k o = Ret (GOk (mkCityWeather (toCity r) w)).
Proof.
  intros Hv Hn Hc Hlat Hlon.
  unfold Query_getCityWeather, getWeatherByCityId.
  rewrite toCity_parse by assumption. cbn [p_latitude p_longitude p_name p_country].
  rewrite getWeatherData_request by exact Hv. cbn [io_map].
  do 3 eexists. split; [reflexivity|]. split; [reflexivity|].
  split; [reflexivity|]. split; [reflexivity|]. split.
  - intro data. eexists. reflexivity.
  - intros o w H. injection H as H. simpl. rewrite H. reflexivity.
Qed.

Lemma getCityWeather_roundtrip_witness :
  let r := mkResult "London" 51.5074 (-0.1278)%float "PPLC" "United Kingdom" in
  exists req k kw, getWeatherData (r_latitude r) (r_longitude r) = Call req kw /\
    Query_getCityWeather (id (toCity r)) = Call req k /\
    f_latitude req = r_latitude r /\ f_longitude req = r_longitude r /\
    (forall data, exists w, kw (WResponse data) = Ret (Ok w)) /\
    forall o w, kw o = Ret (Ok w) -> k o = Ret (GOk (mkCityWeather (toCity r) w)).
Proof.
  intro r. apply (getCityWeather_roundtrip r); vm_compute; reflexivity.
Defined.

(** X15: every outcome of [getCityWeather]: a success echoes the requested id, with name, country and valid coordinates as [parseCityId] decodes them; a failure has service "OpenMeteo Weather API" and a code among INVALID_COORDINATES, TIMEOUT, RATE_LIMIT_EXCEEDED, UNKNOWN_ERROR (never INTERNAL_SERVER_ERROR). *)
Theorem getCityWeather_outcomes (cityId : string) (g : gql_result CityWeather) :
  reaches (Query_getCityWeather cityId) g ->
  match g with
  | GOk cw =>
      id (cw_city cw) = cityId /\
      parseCityId cityId = Ok (mkParsed (latitude (cw_city cw)) (longitude (cw_city cw))
                                 (name (cw_city cw)) (country (cw_city cw))) /\
      isValidCoordinate (latitude (cw_city cw)) (longitude (cw_city cw)) = true
  | GErr e =>
      gql_service e = Some "OpenMeteo Weather API" /\
      In (gql_code e) [ERROR_CODES.INVALID_COORDINATES; ERROR_CODES.TIMEOUT;
                       ERROR_CODES.RATE_LIMIT_EXCEEDED; ERROR_CODES.UNKNOWN_ERROR]
  end.
Proof.
  unfold Query_getCityWeather. intro H.
  apply reaches_io_map in H as [x [Hx ->]].
  unfold getWeatherByCityId in Hx.
  destruct (parseCityId cityId) as [p|e] eqn:Ep.
  - apply reaches_io_map in Hx as [y [Hy ->]].
    destruct y as [w|e].
    + simpl. pose proof (parseCityId_ok cityId p Ep) as Hv.
      destruct p as [lat lon nm ct]. simpl in *. auto.
    + simpl. split; [reflexivity|].
      exact (getWeatherData_reaches_err _ _ e Hy).
  - inversion Hx; subst. simpl. split; [reflexivity|].
    rewrite (parseCityId_err_code cityId e Ep). left. reflexivity.
Qed.

Lemma getCityWeather_outcomes_witness :
  reaches (Query_getCityWeather "12.5,-3:Town:Land")
    (GOk (mkCityWeather (mkCity "12.5,-3:Town:Land" "Town" "Land" 12.5 (-3)%float)
            (mkWeather 15 (getWeatherCondition (Some 3%float)) 70 10 0 []))) /\
  id (mkCity "12.5,-3:Town:Land" "Town" "Land" 12.5 (-3)%float) = "12.5,-3:Town:Land" /\
  parseCityId "12.5,-3:Town:Land" = Ok (mkParsed 12.5 (-3)%float "Town" "Land") /\
  isValidCoordinate 12.5 (-3)%float = true.
Proof.
  assert (H : reaches (Query_getCityWeather "12.5,-3:Town:Land")
    (GOk (mkCityWeather (mkCity "12.5,-3:Town:Land" "Town" "Land" 12.5 (-3)%float)
            (mkWeather 15 (getWeatherCondition (Some 3%float)) 70 10 0 [])))).
  { unfold Query_getCityWeather, getWeatherByCityId.
    assert (Ep : parseCityId "12.5,-3:Town:Land" = Ok (mkParsed 12.5 (-3)%float "Town" "Land"))
      by (vm_compute; reflexivity).
    rewrite Ep. cbn [p_latitude p_longitude p_name p_country].
    rewrite getWeatherData_request by (vm_compute; reflexivity).
    cbn [io_map].
    apply (reaches_call _ _ (WResponse (mkWeatherResponse (mkCurrent 15 70 0 3 10)
                                          (mkDaily [] [] [] [] [] [])))).
    apply reaches_ret. }
  split; [exact H|].
  exact (getCityWeather_outcomes "12.5,-3:Town:Land" _ H).
Defined.




End ResolverFacts.

Module CodecExtras.
Import TextFacts OpenMeteoAPI Binary64 ResolverFacts.
Local Open Scope string_scope.

(** Coordinates with one decimal, [k / 10] as JavaScript computes it, read
    back by [parseFloat] from their [toString], and their ranges. *)
Definition grid_ok (k : Z) : bool :=
  let x := (Js.float_of_Z k / 10)%float in
  sf_eqb (Prim2SF (JsNumber.parseFloat (JsNumber.toString x))) (Prim2SF x)
  && negb (is_nan x) && (-180 <=? x)%float && (x <=? 180)%float
  && implb (Z.abs k <=? 900)%Z ((-90 <=? x)%float && (x <=? 90)%float).

Lemma grid_check :
  forallb grid_ok (map (fun n => Z.of_nat n - 1800)%Z (seq 0 3601)) = true.
Proof. vm_compute. reflexivity. Qed.

Lemma sf_eqb_eq (a b : spec_float) : sf_eqb a b = true -> a = b.
Proof.
  destruct a as [s|s| |s m e], b as [t|t| |t n f]; simpl; try discriminate;
    try (intro H; apply Bool.eqb_prop in H; subst; reflexivity); try reflexivity.
  intro H. apply andb_prop in H as [H H3]. apply andb_prop in H as [H1 H2].
  apply Bool.eqb_prop in H1. apply Pos.eqb_eq in H2. apply Z.eqb_eq in H3. subst. reflexivity.
Qed.

Lemma grid_point (k : Z) : (-1800 <= k <= 1800)%Z -> grid_ok k = true.
Proof.
  intro Hk. pose proof grid_check as H. rewrite forallb_forall in H. apply H.
  apply in_map_iff. exists (Z.to_nat (k + 1800)). split; [lia|]. apply in_seq. lia.
Qed.

(** X17: [parseCityId] reads only the first two comma-separated coordinates: an id "a,b,x:name:country" decodes as "a,b:name:country". *)
Theorem parseCityId_extra_coordinates (a b x nm ct : string) :
  Js.includes a ":" = false -> Js.includes b ":" = false -> Js.includes x ":" = false ->
  Js.includes a "," = false -> Js.includes b "," = false ->
  Js.includes nm ":" = false -> Js.includes ct ":" = false ->
  parseCityId (a ++ "," ++ b ++ "," ++ x ++ ":" ++ nm ++ ":" ++ ct)
  = parseCityId (a ++ "," ++ b ++ ":" ++ nm ++ ":" ++ ct).
Proof.
  intros Ha Hb Hx Hac Hbc Hn Hc.
  assert (Hbx : Js.includes (b ++ "," ++ x) ":" = false)
    by (change ("," ++ x) with (String "," EmptyString ++ x); rewrite !includes_app1, Hb, Hx; reflexivity).
  destruct (split_id_shape a (b ++ "," ++ x) nm ct Ha Hbx Hac Hn Hc) as [E1 E2].
  destruct (split_id_shape a b nm ct Ha Hb Hac Hn Hc) as [F1 F2].
  replace (a ++ "," ++ b ++ "," ++ x ++ ":" ++ nm ++ ":" ++ ct)
    with (a ++ "," ++ (b ++ "," ++ x) ++ ":" ++ nm ++ ":" ++ ct)
    by (rewrite <- !append_assoc; reflexivity).
  unfold parseCityId. rewrite E1, F1. cbv beta iota zeta.
  rewrite E2, F2, (split_no_sep "," b Hbc).
  change ("," ++ x) with (String "," x). rewrite (split_app_sep "," b x Hbc).
  reflexivity.
Qed.

Lemma parseCityId_extra_coordinates_witness :
  parseCityId "12.5,3.25,999:X:Y" = parseCityId "12.5,3.25:X:Y" /\
  parseCityId "12.5,3.25:X:Y" = Ok (mkParsed 12.5 3.25 "X" "Y").
Proof.
  split; [|vm_compute; reflexivity].
  exact (parseCityId_extra_coordinates "12.5" "3.25" "999" "X" "Y"
           ltac:(vm_compute; reflexivity) ltac:(vm_compute; reflexivity)
           ltac:(vm_compute; reflexivity) ltac:(vm_compute; reflexivity)
           ltac:(vm_compute; reflexivity) ltac:(vm_compute; reflexivity)
           ltac:(vm_compute; reflexivity)).
Defined.

(** X18: every city whose coordinates have one decimal (k/10 with latitude in [-90, 90] and longitude in [-180, 180]) and whose name and country have no ':' decodes from its [searchCities] id to its own coordinates, name and country; [toString] and [parseFloat] round-trip on these coordinates. *)
Theorem codec_roundtrip_grid (nm ct fc : string) (k j : Z) :
  (-900 <= k <= 900)%Z -> (-1800 <= j <= 1800)%Z ->
  Js.includes nm ":" = false -> Js.includes ct ":" = false ->
  let r := mkResult nm (Js.float_of_Z k / 10) (Js.float_of_Z j / 10) fc ct in
  parseCityId (id (toCity r))
  = Ok (mkParsed (Js.float_of_Z k / 10) (Js.float_of_Z j / 10) nm ct).
Proof.
  intros Hk Hj Hn Hc r.
  pose proof (grid_point k ltac:(lia)) as Gk. pose proof (grid_point j Hj) as Gj.
  unfold grid_ok in Gk, Gj.
  replace (Z.abs k <=? 900)%Z with true in Gk by (symmetry; apply Z.leb_le; lia).
  apply andb_prop in Gk as [Gk Hk90]. cbn [implb] in Hk90.
  apply andb_prop in Hk90 as [Hk1 Hk2].
  apply andb_prop in Gk as [Gk _]. apply andb_prop in Gk as [Gk _].
  apply andb_prop in Gk as [Gk Hkn].
  apply andb_prop in Gj as [Gj _].
  apply andb_prop in Gj as [Gj Hj2]. apply andb_prop in Gj as [Gj Hj1].
  apply andb_prop in Gj as [Gj Hjn].
  apply toCity_parse; cbn [r_latitude r_longitude r_name r_country r].
  - unfold isValidCoordinate. rewrite Hkn, Hjn, Hk1, Hk2, Hj1, Hj2. reflexivity.
  - exact Hn.
  - exact Hc.
  - apply Prim2SF_inj, sf_eqb_eq, Gk.
  - apply Prim2SF_inj, sf_eqb_eq, Gj.
Qed.

Lemma codec_roundtrip_grid_witness :
  parseCityId (id (toCity (mkResult "Quito" (Js.float_of_Z (-2) / 10) (Js.float_of_Z (-785) / 10)
                             "PPLC" "Ecuador")))
  = Ok (mkParsed (Js.float_of_Z (-2) / 10) (Js.float_of_Z (-785) / 10) "Quito" "Ecuador").
Proof.
  exact (codec_roundtrip_grid "Quito" "Ecuador" "PPLC" (-2) (-785) ltac:(lia) ltac:(lia)
           ltac:(vm_compute; reflexivity) ltac:(vm_compute; reflexivity)).
Defined.

End CodecExtras.
